(** * The job-processing webhook of mycoloringbook

    A shallow embedding of the two route handlers of the repository,

      - [src/app/api/webhook/process-job/route.ts]  (module [RouteTs]),
      - [src/unnamed/part_000]                      (module [Part000]),

    together with the platform functions they call (string matching, [atob],
    the store client, [fetch]).  The handlers are written in a state and
    exception monad over a [World] that holds the [jobs] table and the list of
    outbound calls made so far; the answers of the outside world during one
    delivery are the fields of an [Env]. *)

From Stdlib Require Import String Ascii Bool NArith ZArith Lia List.
From Stdlib Require Import Floats.PrimFloat.
Import ListNotations.

Set Warnings "-register-all".

Local Open Scope N_scope.
Local Open Scope list_scope.

(* ================================================================== *)
(** ** JavaScript strings *)

(** A JavaScript string is a sequence of UTF-16 code units. *)
Definition code_unit := N.
Definition jsstring := list code_unit.

(** [str "..."] is the JavaScript string of an ASCII literal of the source. *)
Definition str (s : string) : jsstring :=
  map N_of_ascii (list_ascii_of_string s).

Fixpoint jsstring_eqb (s t : jsstring) : bool :=
  match s, t with
  | [], [] => true
  | c :: s', d :: t' => (c =? d) && jsstring_eqb s' t'
  | _, _ => false
  end.

(** [String.prototype.startsWith]: on success the rest of the string. *)
Fixpoint strip_prefix (p s : jsstring) : option jsstring :=
  match p, s with
  | [], _ => Some s
  | c :: p', d :: s' => if c =? d then strip_prefix p' s' else None
  | _ :: _, [] => None
  end.

Definition startsWith (s p : jsstring) : bool :=
  match strip_prefix p s with Some _ => true | None => false end.

(** The decimal rendering of a non-negative integer, as [String(n)] and a
    template literal give it. *)
Fixpoint digits_of_uint (d : Decimal.uint) : jsstring :=
  match d with
  | Decimal.Nil => []
  | Decimal.D0 r => 48 :: digits_of_uint r
  | Decimal.D1 r => 49 :: digits_of_uint r
  | Decimal.D2 r => 50 :: digits_of_uint r
  | Decimal.D3 r => 51 :: digits_of_uint r
  | Decimal.D4 r => 52 :: digits_of_uint r
  | Decimal.D5 r => 53 :: digits_of_uint r
  | Decimal.D6 r => 54 :: digits_of_uint r
  | Decimal.D7 r => 55 :: digits_of_uint r
  | Decimal.D8 r => 56 :: digits_of_uint r
  | Decimal.D9 r => 57 :: digits_of_uint r
  end.

Definition String_of_N (n : N) : jsstring := digits_of_uint (N.to_uint n).

(* ================================================================== *)
(** ** JavaScript values *)

(** The values a parsed JSON document is made of, and [undefined], which
    reading an absent property yields.  A number is an IEEE double. *)
Inductive js_value : Type :=
| VUndefined
| VNull
| VBool (b : bool)
| VNum (x : float)
| VStr (s : jsstring)
| VArr (items : list js_value)
| VObj (fields : list (jsstring * js_value)).

(** ToBoolean: [undefined], [null], [false], [0], [-0], [NaN] and the empty
    string are falsy; every other value, objects and arrays included, is
    truthy. *)
Definition truthy (v : js_value) : bool :=
  match v with
  | VUndefined | VNull => false
  | VBool b => b
  | VNum x => negb (PrimFloat.eqb x 0%float || PrimFloat.is_nan x)
  | VStr s => match s with [] => false | _ :: _ => true end
  | VArr _ | VObj _ => true
  end.

Definition falsy (v : js_value) : bool := negb (truthy v).

(** The own property [k] of an object literal. *)
Fixpoint lookup (k : jsstring) (fields : list (jsstring * js_value)) : js_value :=
  match fields with
  | [] => VUndefined
  | (k', v) :: rest => if jsstring_eqb k k' then v else lookup k rest
  end.

(** [v?.k] for the property names the handlers read ([record], [id],
    [input_image_url], [status], [data], [url]): none of them is a property
    of a string, number, boolean or array, so only an object can answer with
    something other than [undefined]. *)
Definition opt_get (v : js_value) (k : jsstring) : js_value :=
  match v with
  | VObj fields => lookup k fields
  | _ => VUndefined
  end.

(** [v?.[0]]: the first element of an array, the first code unit of a
    string, the property ["0"] of an object. *)
Definition opt_index0 (v : js_value) : js_value :=
  match v with
  | VArr (x :: _) => x
  | VStr (c :: _) => VStr [c]
  | VObj fields => lookup (str "0") fields
  | _ => VUndefined
  end.

(** [v !== s] for a string literal [s]. *)
Definition strict_neq_str (v : js_value) (s : jsstring) : bool :=
  match v with
  | VStr t => negb (jsstring_eqb t s)
  | _ => true
  end.

(** What JSON carries of a value: the value that [JSON.parse] gives back
    from the text [JSON.stringify] writes.  [NaN] and the infinities are
    written as [null] and [-0] as [0]; a member of an object that is
    [undefined] is left out, an element of an array that is [undefined] is
    written as [null]; [undefined] itself has no text. *)
Fixpoint JSON_value (v : js_value) : js_value :=
  match v with
  | VUndefined => VUndefined
  | VNull => VNull
  | VBool b => VBool b
  | VNum x =>
      if PrimFloat.is_nan x || PrimFloat.is_infinity x then VNull
      else if PrimFloat.eqb x 0%float then VNum 0%float
      else VNum x
  | VStr s => VStr s
  | VArr items =>
      VArr (map (fun item =>
                   match item with
                   | VUndefined => VNull
                   | _ => JSON_value item
                   end) items)
  | VObj fields =>
      VObj ((fix members (fs : list (jsstring * js_value)) :=
               match fs with
               | [] => []
               | (k, VUndefined) :: rest => members rest
               | (k, x) :: rest => (k, JSON_value x) :: members rest
               end) fields)
  end.

(** The members of an object literal as JSON carries them. *)
Definition JSON_members (fields : list (jsstring * js_value))
  : list (jsstring * js_value) :=
  match JSON_value (VObj fields) with
  | VObj members => members
  | _ => []
  end.

(* ================================================================== *)
(** ** Exceptions *)

(** Every exception that arises in the handlers is an [Error] object (the
    ones the source constructs, the [TypeError] of a rejected [fetch] or of a
    call to a missing method, the [DOMException] of [atob]); what the
    handlers read of it is its [message]. *)
Inductive js_error : Type :=
| Error (message : jsstring).

Definition message (e : js_error) : jsstring :=
  match e with Error m => m end.

(** How the evaluation of an expression ends: with a value or by throwing. *)
Inductive completion (A : Type) : Type :=
| Normal (a : A)
| Throw (e : js_error).
Arguments Normal {A} a.
Arguments Throw {A} e.

(* ================================================================== *)
(** ** The data-URL decoder of route.ts *)

(** [isBase64DataUrl] (route.ts, lines 13-15). *)
Definition isBase64DataUrl (url : jsstring) : bool :=
  startsWith url (str "data:").

(** The character class [[A-Za-z-+/]]. *)
Definition is_mime_char (c : code_unit) : bool :=
  ((65 <=? c) && (c <=? 90)) || ((97 <=? c) && (c <=? 122))
  || (c =? 45) || (c =? 43) || (c =? 47).

(** The line terminators LF, CR, U+2028 and U+2029: what [.] does not
    match in a regular expression without the [s] flag. *)
Definition is_line_terminator (c : code_unit) : bool :=
  (c =? 10) || (c =? 13) || (c =? 8232) || (c =? 8233).

Definition dot (c : code_unit) : bool := negb (is_line_terminator c).

(** The longest prefix of [s] whose code units satisfy [p], and the rest. *)
Fixpoint span (p : code_unit -> bool) (s : jsstring) : jsstring * jsstring :=
  match s with
  | [] => ([], [])
  | c :: s' =>
      if p c then let (a, b) := span p s' in (c :: a, b) else ([], s)
  end.

(** [dataUrl.match(/^data:([A-Za-z-+/]+);base64,(.+)$/)]: [None] for [null],
    otherwise the array of the whole match and the two groups.  The class of
    the first group excludes [;], so the greedy group is the only one that
    can be followed by [;base64,]; the second group runs to the end of the
    input, which [$] demands as there is no [m] flag. *)
Definition match_data_url (s : jsstring) : option (list jsstring) :=
  match strip_prefix (str "data:") s with
  | None => None
  | Some r =>
      let (mime, r') := span is_mime_char r in
      match mime with
      | [] => None
      | _ :: _ =>
          match strip_prefix (str ";base64,") r' with
          | None => None
          | Some [] => None
          | Some ((_ :: _) as payload) =>
              if forallb dot payload then Some [s; mime; payload] else None
          end
      end
  end.

(** The strings the regular expression of [match_data_url] accepts, said
    without the matcher: [data:], a non-empty media type made of the class,
    [;base64,], and a non-empty payload without a line terminator. *)
Definition well_formed_data_url (s : jsstring) : Prop :=
  exists mime payload,
    s = str "data:" ++ mime ++ str ";base64," ++ payload
    /\ mime <> [] /\ forallb is_mime_char mime = true
    /\ payload <> [] /\ forallb dot payload = true.

(** *** [atob]: the forgiving-base64 decode of the HTML standard *)

(** TAB, LF, FF, CR and SPACE. *)
Definition is_ascii_whitespace (c : code_unit) : bool :=
  (c =? 9) || (c =? 10) || (c =? 12) || (c =? 13) || (c =? 32).

(** The position of a code unit in the base64 alphabet [A-Za-z0-9+/]. *)
Definition base64_index (c : code_unit) : option N :=
  if (65 <=? c) && (c <=? 90) then Some (c - 65)
  else if (97 <=? c) && (c <=? 122) then Some (c - 71)
  else if (48 <=? c) && (c <=? 57) then Some (c + 4)
  else if c =? 43 then Some 62
  else if c =? 47 then Some 63
  else None.

Fixpoint base64_indices (s : jsstring) : option (list N) :=
  match s with
  | [] => Some []
  | c :: s' =>
      match base64_index c, base64_indices s' with
      | Some i, Some r => Some (i :: r)
      | _, _ => None
      end
  end.

(** [s] without its last code unit when that is [=]. *)
Definition drop_final_equals (s : jsstring) : jsstring :=
  match rev s with
  | c :: r => if c =? 61 then rev r else s
  | [] => s
  end.

(** When the length is a multiple of four, one or two [=] at the end are
    removed. *)
Definition remove_padding (s : jsstring) : jsstring :=
  if (N.of_nat (length s) mod 4 =? 0) then
    drop_final_equals (drop_final_equals s)
  else s.

(** Groups of four sextets give three bytes; twelve bits left over give one
    byte (the last four bits are dropped), eighteen give two (the last two
    are dropped). *)
Fixpoint decode_sextets (l : list N) : list N :=
  match l with
  | a :: b :: c :: d :: rest =>
      let n := a * 262144 + b * 4096 + c * 64 + d in
      (n / 65536) :: ((n / 256) mod 256) :: (n mod 256) :: decode_sextets rest
  | [a; b; c] =>
      let n := (a * 4096 + b * 64 + c) / 4 in
      [n / 256; n mod 256]
  | [a; b] => [(a * 64 + b) / 16]
  | _ => []
  end.

(** The two errors of [atob], with the messages Node gives them: the one
    for a code unit that is not of the alphabet (an [=] that is not padding
    included), the other for a length that has no decoding. *)
Definition atob_invalid_character : js_error :=
  Error (str "Invalid character").

Definition atob_error : js_error :=
  Error (str "The string to be decoded is not correctly encoded.").

(** The result is a binary string: one code unit below 256 per byte. *)
Definition atob (data : jsstring) : completion jsstring :=
  let data := filter (fun c => negb (is_ascii_whitespace c)) data in
  let data := remove_padding data in
  match base64_indices data with
  | None => Throw atob_invalid_character
  | Some sextets =>
      if (N.of_nat (length data) mod 4 =? 1) then Throw atob_error
      else Normal (decode_sextets sextets)
  end.

(** *** [base64DataUrlToBlob] (route.ts, lines 20-41) *)

(** A [Blob]: its bytes and its [type]. *)
Record Blob : Type := {
  blob_bytes : list N;
  blob_type : jsstring
}.

(** ASCII lower case. *)
Definition ascii_lower (c : code_unit) : code_unit :=
  if (65 <=? c) && (c <=? 90) then c + 32 else c.

Definition ASCII_lowercase (s : jsstring) : jsstring := map ascii_lower s.

(** The [type] of a blob built with the option [type]: the option in lower
    case, or the empty string when the option holds a code unit outside
    U+0020 to U+007E. *)
Definition Blob_type (type : jsstring) : jsstring :=
  if forallb (fun c => (32 <=? c) && (c <=? 126)) type
  then ASCII_lowercase type
  else [].

(** [new Blob([bytes], { type })] *)
Definition new_Blob (bytes : list N) (type : jsstring) : Blob :=
  {| blob_bytes := bytes; blob_type := Blob_type type |}.

(** [s.charCodeAt(i)] for an index inside the string. *)
Definition charCodeAt (s : jsstring) (i : nat) : N := nth i s 0.

(** [bytes[i] = v] on a [Uint8Array]: the value is stored modulo 256, and a
    write outside the array does nothing. *)
Fixpoint uint8_set (bytes : list N) (i : nat) (v : N) : list N :=
  match bytes, i with
  | [], _ => []
  | _ :: rest, O => (v mod 256) :: rest
  | b :: rest, S i' => b :: uint8_set rest i' v
  end.

(** The loop [for (let i = 0; i < binaryString.length; i++)], with [todo]
    iterations left to run from index [i]. *)
Fixpoint copy_char_codes (todo i : nat) (binaryString : jsstring)
    (bytes : list N) : list N :=
  match todo with
  | O => bytes
  | S todo' =>
      copy_char_codes todo' (S i) binaryString
        (uint8_set bytes i (charCodeAt binaryString i))
  end.

Definition base64DataUrlToBlob (dataUrl : jsstring) : completion Blob :=
  let matches := match_data_url dataUrl in
  match matches with
  | None => Throw (Error (str "Invalid data URL format"))
  | Some ms =>
      if negb (Nat.eqb (length ms) 3) then
        Throw (Error (str "Invalid data URL format"))
      else
        let mimeType := nth 1 ms [] in
        let base64Data := nth 2 ms [] in
        match atob base64Data with
        | Throw e => Throw e
        | Normal binaryString =>
            let bytes := repeat 0 (length binaryString) in
            let bytes :=
              copy_char_codes (length binaryString) 0 binaryString bytes in
            Normal (new_Blob bytes mimeType)
        end
  end.

(** *** The encoder of the round trip *)

(** The character of a sextet in the base64 alphabet. *)
Definition base64_char (i : N) : code_unit :=
  if i <? 26 then i + 65
  else if i <? 52 then i + 71
  else if i <? 62 then i - 4
  else if i =? 62 then 43
  else 47.

(** The sextets of a sequence of bytes, the last group cut to two or three
    sextets when one or two bytes remain. *)
Fixpoint sextets_of (bytes : list N) : list N :=
  match bytes with
  | [] => []
  | [a] => let n := a * 16 in [n / 64; n mod 64]
  | [a; b] =>
      let n := (a * 256 + b) * 4 in
      [n / 4096; (n / 64) mod 64; n mod 64]
  | a :: b :: c :: rest =>
      let n := a * 65536 + b * 256 + c in
      (n / 262144) :: ((n / 4096) mod 64) :: ((n / 64) mod 64) :: (n mod 64)
      :: sextets_of rest
  end.

(** The [=] signs that fill the last group. *)
Fixpoint padding_of (bytes : list N) : jsstring :=
  match bytes with
  | [] => []
  | [_] => [61; 61]
  | [_; _] => [61]
  | _ :: _ :: _ :: rest => padding_of rest
  end.

(** The encoding the round trip speaks of: base64 with padding (RFC 4648),
    which is what [btoa] and [FileReader.readAsDataURL] produce.  The
    repository has no encoder; this one states what "encoded" means. *)
Definition base64_encode (bytes : list N) : jsstring :=
  map base64_char (sextets_of bytes) ++ padding_of bytes.

(** The data URL of [bytes] with the media type [mime]. *)
Definition data_url (mime : jsstring) (bytes : list N) : jsstring :=
  str "data:" ++ mime ++ str ";base64," ++ base64_encode bytes.

(* ================================================================== *)
(** ** The store, the network and the clock *)

(** A row of the [jobs] table.  A column that is NULL is [None]. *)
Record job : Type := {
  id : js_value;
  input_image_url : js_value;
  status : jsstring;
  result_image_url : option js_value;
  error_message : option jsstring;
  processed_at : option jsstring
}.

(** The object given to [update]: the columns it names, with their values. *)
Record patch : Type := {
  set_status : option jsstring;
  set_result_image_url : option js_value;
  set_error_message : option jsstring;
  set_processed_at : option jsstring
}.

Definition overwrite {A : Type} (new : option A) (old : option A) : option A :=
  match new with Some _ => new | None => old end.

(** What a column holds once the object of an update has named it with the
    value [new]: the object reaches the store as JSON, so the column gets
    what JSON carries of the value, NULL for [null], and is left as it was
    when the member is [undefined]. *)
Definition write_column (new : option js_value) (old : option js_value)
  : option js_value :=
  match new with
  | None => old
  | Some v =>
      match JSON_value v with
      | VUndefined => old
      | VNull => None
      | carried => Some carried
      end
  end.

(** The column that holds the value [carried]: NULL for [null]. *)
Definition column_of (carried : js_value) : option js_value :=
  match carried with
  | VNull => None
  | _ => Some carried
  end.

Definition apply_patch (p : patch) (r : job) : job :=
  {| id := id r;
     input_image_url := input_image_url r;
     status := match set_status p with Some s => s | None => status r end;
     result_image_url :=
       write_column (set_result_image_url p) (result_image_url r);
     error_message := overwrite (set_error_message p) (error_message r);
     processed_at := overwrite (set_processed_at p) (processed_at r) |}.

(** The [error] member of what the store client resolves to. *)
Record PostgrestError : Type := { pg_message : jsstring }.

(** What [select("*").eq("id", id).single()] resolves to. *)
Record select_result : Type := {
  sel_data : option job;
  sel_error : option PostgrestError
}.

(** What [update(p).eq("id", id)] resolves to. *)
Record update_result : Type := { upd_error : option PostgrestError }.

Inductive form_entry : Type :=
| FileEntry (name : jsstring) (file : Blob) (filename : jsstring)
| TextEntry (name : jsstring) (value : jsstring).

Definition FormData := list form_entry.

Inductive request : Type :=
| Get (url : js_value)
| Post (url : jsstring) (authorization : jsstring) (body : FormData).

(** A [Response] of [fetch]: its status line, and what reading its body as
    a blob, as text or as JSON resolves to. *)
Record Response : Type := {
  ok : bool;
  http_status : N;
  statusText : jsstring;
  blob : completion Blob;
  text : completion jsstring;
  json : completion js_value
}.

(** An outbound call. *)
Inductive call : Type :=
| StoreSelect (id : js_value)
| StoreUpdate (id : js_value) (p : patch)
| Fetch (r : request).

(** How the outside world answers during one delivery.  The client of the
    store resolves every call to a pair of data and error and never rejects;
    [fetch] resolves to a response or rejects. *)
Record Env : Type := {
  OPENAI_API_KEY : jsstring;
  (** whether the filter [id=eq.<v>] selects a row with this [id] column *)
  eq_id : js_value -> js_value -> bool;
  (** the failure of the read, if the store reports one *)
  select_error : js_value -> option PostgrestError;
  (** the failure of a write, if the store reports one *)
  update_error : js_value -> patch -> option PostgrestError;
  fetch : request -> completion Response;
  (** [toISOString()] of the clock at its [k]-th reading *)
  Date_now : nat -> jsstring
}.

Record World : Type := {
  jobs : list job;
  calls : list call;
  clock_reads : nat
}.

Definition record_call (c : call) (w : World) : World :=
  {| jobs := jobs w; calls := calls w ++ [c]; clock_reads := clock_reads w |}.

(** The world after further calls that change neither the table nor the
    clock. *)
Definition with_calls (cs : list call) (w : World) : World :=
  {| jobs := jobs w; calls := calls w ++ cs; clock_reads := clock_reads w |}.

(** Whether a call is an HTTP GET. *)
Definition is_http_get (c : call) : bool :=
  match c with
  | Fetch (Get _) => true
  | _ => false
  end.

Definition selected (env : Env) (v : js_value) (r : job) : bool :=
  eq_id env v (id r).

(** The error of [single()] when the filter selects no row or several. *)
Definition single_row_error : PostgrestError :=
  {| pg_message := str "JSON object requested, multiple (or no) rows returned" |}.

(** A write the store accepts changes every selected row; a write it
    reports as failed changes nothing. *)
Definition write_rows (env : Env) (v : js_value) (p : patch) (rows : list job)
  : list job :=
  map (fun r => if selected env v r then apply_patch p r else r) rows.

(* ================================================================== *)
(** ** The monad of the handlers *)

Definition M (A : Type) : Type := World -> completion A * World.

Definition ret {A : Type} (a : A) : M A := fun w => (Normal a, w).

Definition throw {A : Type} (e : js_error) : M A := fun w => (Throw e, w).

Definition bind {A B : Type} (m : M A) (k : A -> M B) : M B :=
  fun w =>
    match m w with
    | (Normal a, w') => k a w'
    | (Throw e, w') => (Throw e, w')
    end.

(** [try { m } catch (e) { h e }] *)
Definition try_catch {A : Type} (m : M A) (h : js_error -> M A) : M A :=
  fun w =>
    match m w with
    | (Normal a, w') => (Normal a, w')
    | (Throw e, w') => h e w'
    end.

(** [await] of a promise whose outcome is already known. *)
Definition await {A : Type} (c : completion A) : M A := fun w => (c, w).

Notation "x <- m ;; k" := (bind m (fun x => k))
  (at level 61, m at next level, right associativity).
Notation "m ;;; k" := (bind m (fun _ => k))
  (at level 61, right associativity).

(** [supabase.from("jobs").select("*").eq("id", v).single()] *)
Definition supabase_select_single (env : Env) (v : js_value) : M select_result :=
  fun w =>
    let w' := record_call (StoreSelect v) w in
    match select_error env v with
    | Some e => (Normal {| sel_data := None; sel_error := Some e |}, w')
    | None =>
        match filter (selected env v) (jobs w) with
        | [r] => (Normal {| sel_data := Some r; sel_error := None |}, w')
        | _ =>
            (Normal {| sel_data := None; sel_error := Some single_row_error |}, w')
        end
    end.

(** [supabase.from("jobs").update(p).eq("id", v)] *)
Definition supabase_update (env : Env) (p : patch) (v : js_value) : M update_result :=
  fun w =>
    let w' := record_call (StoreUpdate v p) w in
    match update_error env v p with
    | Some e => (Normal {| upd_error := Some e |}, w')
    | None =>
        (Normal {| upd_error := None |},
         {| jobs := write_rows env v p (jobs w');
            calls := calls w';
            clock_reads := clock_reads w' |})
    end.

(** [fetch(...)] *)
Definition do_fetch (env : Env) (r : request) : M Response :=
  fun w => (fetch env r, record_call (Fetch r) w).

(** [new Date().toISOString()] *)
Definition new_Date_toISOString (env : Env) : M jsstring :=
  fun w =>
    (Normal (Date_now env (clock_reads w)),
     {| jobs := jobs w; calls := calls w; clock_reads := S (clock_reads w) |}).

(* ================================================================== *)
(** ** Requests and responses of the route *)

(** The incoming request: what [req.json()] resolves to. *)
Record NextRequest : Type := { req_json : completion js_value }.

Record NextResponse : Type := {
  res_status : N;
  res_body : list (jsstring * js_value)
}.

(** [NextResponse.json(body, { status })]: the body is serialised with
    [JSON.stringify]; [res_body] is what the receiver reads of it. *)
Definition NextResponse_json (body : list (jsstring * js_value)) (status : N)
  : NextResponse :=
  {| res_status := status; res_body := JSON_members body |}.

Definition is_some {A : Type} (o : option A) : bool :=
  match o with Some _ => true | None => false end.

(** [e?.message] of the store's error. *)
Definition opt_message (e : option PostgrestError) : js_value :=
  match e with Some e => VStr (pg_message e) | None => VUndefined end.

Definition no_columns : patch :=
  {| set_status := None; set_result_image_url := None;
     set_error_message := None; set_processed_at := None |}.

(** [{ status: "processing" }], the object of the first update of both
    handlers. *)
Definition processing_update : patch :=
  {| set_status := Some (str "processing");
     set_result_image_url := None;
     set_error_message := None;
     set_processed_at := None |}.

(** The reason [input_image_url.startsWith] has when the value is not a
    string and so has no such method. *)
Definition startsWith_type_error : js_error :=
  Error (str "url.startsWith is not a function").

(* ================================================================== *)
(** ** src/app/api/webhook/process-job/route.ts *)

Module RouteTs.

(** The call [isBase64DataUrl(input_image_url)] on the value of the payload. *)
Definition call_isBase64DataUrl (url : js_value) : completion bool :=
  match url with
  | VStr s => Normal (isBase64DataUrl s)
  | _ => Throw startsWith_type_error
  end.

(** The call [base64DataUrlToBlob(input_image_url)]; it is reached only for a
    string. *)
Definition call_base64DataUrlToBlob (url : js_value) : completion Blob :=
  match url with
  | VStr s => base64DataUrlToBlob s
  | _ => Throw startsWith_type_error
  end.

(** Lines 74-89: the image comes from the data URL or from the network. *)
Definition acquire_image (env : Env) (input_image_url : js_value) : M Blob :=
  is_data_url <- await (call_isBase64DataUrl input_image_url) ;;
  if is_data_url then
    await (call_base64DataUrlToBlob input_image_url)
  else
    imageResponse <- do_fetch env (Get input_image_url) ;;
    if negb (ok imageResponse) then
      throw (Error (str "Failed to download input image: "
                      ++ statusText imageResponse))
    else
      await (blob imageResponse).

(** Lines 91-104: the request to the image API. *)
Definition variations_request (env : Env) (imageBlob : Blob) : request :=
  Post (str "https://api.openai.com/v1/images/variations")
       (str "Bearer " ++ OPENAI_API_KEY env)
       [ FileEntry (str "image") imageBlob (str "input.png");
         TextEntry (str "n") (str "1");
         TextEntry (str "size") (str "1024x1024") ].

(** Lines 121-125: the object of the update that finalises success. *)
Definition complete_update (resultImageUrl : js_value) (now : jsstring) : patch :=
  {| set_status := Some (str "complete");
     set_result_image_url := Some resultImageUrl;
     set_error_message := None;
     set_processed_at := Some now |}.

(** Lines 142-146: the object of the update that finalises failure. *)
Definition failed_update (processError : js_error) (now : jsstring) : patch :=
  {| set_status := Some (str "failed");
     set_result_image_url := None;
     set_error_message := Some (message processError);
     set_processed_at := Some now |}.

(** Lines 91-135: the image goes to the image API and the result to the
    store. *)
Definition submit (env : Env) (id : js_value) (imageBlob : Blob) : M NextResponse :=
  openAIResponse <- do_fetch env (variations_request env imageBlob) ;;
  if negb (ok openAIResponse) then
    errorText <- await (text openAIResponse) ;;
    throw (Error (str "OpenAI API error: "
                    ++ String_of_N (http_status openAIResponse)
                    ++ str " " ++ errorText))
  else
    openAIResult <- await (json openAIResponse) ;;
    let resultImageUrl :=
      opt_get (opt_index0 (opt_get openAIResult (str "data"))) (str "url") in
    if falsy resultImageUrl then
      throw (Error (str "OpenAI API did not return a result image URL"))
    else
      now <- new_Date_toISOString env ;;
      r <- supabase_update env (complete_update resultImageUrl now) id ;;
      match upd_error r with
      | Some updateError =>
          throw (Error (str "Failed to update job in Supabase: "
                          ++ pg_message updateError))
      | None =>
          ret (NextResponse_json
                 [ (str "message", VStr (str "Job processed successfully"));
                   (str "result_image_url", resultImageUrl) ]
                 200)
      end.

(** Lines 72-135: the body of the inner [try]. *)
Definition process (env : Env) (id input_image_url : js_value) : M NextResponse :=
  imageBlob <- acquire_image env input_image_url ;;
  submit env id imageBlob.

(** Lines 136-156: the [catch] of the inner [try]. *)
Definition on_process_error (env : Env) (id : js_value) (processError : js_error)
  : M NextResponse :=
  now <- new_Date_toISOString env ;;
  supabase_update env (failed_update processError now) id ;;;
  ret (NextResponse_json
         [ (str "error", VStr (str "Job processing failed"));
           (str "details", VStr (message processError)) ]
         500).

(** Lines 43-167. *)
Definition POST (env : Env) (req : NextRequest) : M NextResponse :=
  try_catch
    (body <- await (req_json req) ;;
     let record := opt_get body (str "record") in
     if falsy (opt_get record (str "id"))
        || falsy (opt_get record (str "input_image_url"))
        || falsy (opt_get record (str "status"))
     then
       ret (NextResponse_json
              [ (str "error", VStr (str "Invalid payload: Missing required fields")) ]
              400)
     else
       let id := opt_get record (str "id") in
       let input_image_url := opt_get record (str "input_image_url") in
       let status := opt_get record (str "status") in
       if strict_neq_str status (str "pending") then
         ret (NextResponse_json
                [ (str "message",
                   VStr (str "Job is not in pending status; no action taken.")) ]
                200)
       else
         fetched <- supabase_select_single env id ;;
         if is_some (sel_error fetched) || negb (is_some (sel_data fetched)) then
           ret (NextResponse_json
                  [ (str "error", VStr (str "Failed to fetch job from Supabase"));
                    (str "details", opt_message (sel_error fetched)) ]
                  500)
         else
           supabase_update env processing_update id ;;;
           try_catch (process env id input_image_url)
                     (on_process_error env id))
    (fun error =>
       ret (NextResponse_json
              [ (str "error", VStr (str "Internal server error"));
                (str "details", VStr (message error)) ]
              500)).

End RouteTs.

(* ================================================================== *)
(** ** src/unnamed/part_000 *)

Module Part000.

(** Lines 61-73: the request to the image API. *)
Definition variations_request (env : Env) (imageBlob : Blob) : request :=
  Post (str "https://api.openai.com/v1/images/variations")
       (str "Bearer " ++ OPENAI_API_KEY env)
       [ FileEntry (str "image") imageBlob (str "image.png");
         TextEntry (str "n") (str "1");
         TextEntry (str "size") (str "1024x1024") ].

(** Lines 53-58: the image always comes from the network. *)
Definition acquire_image (env : Env) (input_image_url : js_value) : M Blob :=
  imageResponse <- do_fetch env (Get input_image_url) ;;
  if negb (ok imageResponse) then
    throw (Error (str "Failed to download input image: "
                    ++ statusText imageResponse))
  else
    await (blob imageResponse).

(** Line 90: the object of the update that finalises success. *)
Definition complete_update (resultImageUrl : js_value) : patch :=
  {| set_status := Some (str "complete");
     set_result_image_url := Some resultImageUrl;
     set_error_message := None;
     set_processed_at := None |}.

(** Line 105: the object of the update that finalises failure. *)
Definition failed_update (processError : js_error) : patch :=
  {| set_status := Some (str "failed");
     set_result_image_url := None;
     set_error_message := Some (message processError);
     set_processed_at := None |}.

(** Lines 60-100: the image goes to the image API and the result to the
    store. *)
Definition submit (env : Env) (id : js_value) (imageBlob : Blob) : M NextResponse :=
  openAIResponse <- do_fetch env (variations_request env imageBlob) ;;
  if negb (ok openAIResponse) then
    errorText <- await (text openAIResponse) ;;
    throw (Error (str "OpenAI API error: "
                    ++ String_of_N (http_status openAIResponse)
                    ++ str " " ++ errorText))
  else
    openAIResult <- await (json openAIResponse) ;;
    let resultImageUrl :=
      opt_get (opt_index0 (opt_get openAIResult (str "data"))) (str "url") in
    if falsy resultImageUrl then
      throw (Error (str "OpenAI API did not return a result image URL"))
    else
      r <- supabase_update env (complete_update resultImageUrl) id ;;
      match upd_error r with
      | Some updateError =>
          throw (Error (str "Failed to update job in Supabase: "
                          ++ pg_message updateError))
      | None =>
          ret (NextResponse_json
                 [ (str "message", VStr (str "Job processed successfully"));
                   (str "result_image_url", resultImageUrl) ]
                 200)
      end.

(** Lines 52-100: the body of the inner [try]. *)
Definition process (env : Env) (id input_image_url : js_value) : M NextResponse :=
  imageBlob <- acquire_image env input_image_url ;;
  submit env id imageBlob.

(** Lines 101-112: the [catch] of the inner [try]. *)
Definition on_process_error (env : Env) (id : js_value) (processError : js_error)
  : M NextResponse :=
  supabase_update env (failed_update processError) id ;;;
  ret (NextResponse_json
         [ (str "error", VStr (str "Job processing failed"));
           (str "details", VStr (message processError)) ]
         500).

(** Lines 10-119. *)
Definition POST (env : Env) (req : NextRequest) : M NextResponse :=
  try_catch
    (body <- await (req_json req) ;;
     let record := opt_get body (str "record") in
     if falsy (opt_get record (str "id"))
        || falsy (opt_get record (str "input_image_url"))
        || falsy (opt_get record (str "status"))
     then
       ret (NextResponse_json
              [ (str "error", VStr (str "Invalid payload: Missing required fields")) ]
              400)
     else
       let id := opt_get record (str "id") in
       let input_image_url := opt_get record (str "input_image_url") in
       let status := opt_get record (str "status") in
       if strict_neq_str status (str "pending") then
         ret (NextResponse_json
                [ (str "message",
                   VStr (str "Job is not in pending status; no action taken.")) ]
                200)
       else
         fetched <- supabase_select_single env id ;;
         if is_some (sel_error fetched) || negb (is_some (sel_data fetched)) then
           ret (NextResponse_json
                  [ (str "error", VStr (str "Failed to fetch job from Supabase"));
                    (str "details", opt_message (sel_error fetched)) ]
                  500)
         else
           supabase_update env processing_update id ;;;
           try_catch (process env id input_image_url)
                     (on_process_error env id))
    (fun error =>
       ret (NextResponse_json
              [ (str "error", VStr (str "Internal server error"));
                (str "details", VStr (message error)) ]
              500)).

End Part000.

(* ================================================================== *)
(** ** Both handlers at once *)

Inductive handler : Type := route_ts | part_000.

Definition POST (h : handler) : Env -> NextRequest -> M NextResponse :=
  match h with
  | route_ts => RouteTs.POST
  | part_000 => Part000.POST
  end.

Definition acquire_image (h : handler) : Env -> js_value -> M Blob :=
  match h with
  | route_ts => RouteTs.acquire_image
  | part_000 => Part000.acquire_image
  end.

Definition variations_request (h : handler) : Env -> Blob -> request :=
  match h with
  | route_ts => RouteTs.variations_request
  | part_000 => Part000.variations_request
  end.

Definition process (h : handler) : Env -> js_value -> js_value -> M NextResponse :=
  match h with
  | route_ts => RouteTs.process
  | part_000 => Part000.process
  end.

Definition submit (h : handler) : Env -> js_value -> Blob -> M NextResponse :=
  match h with
  | route_ts => RouteTs.submit
  | part_000 => Part000.submit
  end.

Definition on_process_error (h : handler)
  : Env -> js_value -> js_error -> M NextResponse :=
  match h with
  | route_ts => RouteTs.on_process_error
  | part_000 => Part000.on_process_error
  end.

(** The world once the row has been read and the first update made: where
    the inner [try] starts. *)
Definition claimed (env : Env) (id : js_value) (w : World) : World :=
  snd (supabase_update env processing_update id (record_call (StoreSelect id) w)).

(** The object of the completing update when the clock reads [now]; only
    route.ts writes the time. *)
Definition complete_update (h : handler) (resultImageUrl : js_value)
    (now : jsstring) : patch :=
  match h with
  | route_ts => RouteTs.complete_update resultImageUrl now
  | part_000 => Part000.complete_update resultImageUrl
  end.

Definition failed_update (h : handler) (processError : js_error)
    (now : jsstring) : patch :=
  match h with
  | route_ts => RouteTs.failed_update processError now
  | part_000 => Part000.failed_update processError
  end.

(** What one reading of the clock does to the world; only route.ts reads
    the clock. *)
Definition clock_read (h : handler) (w : World) : World :=
  match h with
  | route_ts =>
      {| jobs := jobs w; calls := calls w; clock_reads := S (clock_reads w) |}
  | part_000 => w
  end.

(** The two updates that end a job: the one writes ["complete"] and a
    result and no error message, the other ["failed"] and an error message
    and no result. *)
Definition terminal_update (p : patch) : Prop :=
  (set_status p = Some (str "complete")
   /\ set_result_image_url p <> None /\ set_error_message p = None)
  \/ (set_status p = Some (str "failed")
      /\ set_error_message p <> None /\ set_result_image_url p = None).

(** The responses of the route. *)
Definition invalid_payload_response : NextResponse :=
  NextResponse_json
    [ (str "error", VStr (str "Invalid payload: Missing required fields")) ] 400.

Definition not_pending_response : NextResponse :=
  NextResponse_json
    [ (str "message",
       VStr (str "Job is not in pending status; no action taken.")) ] 200.

Definition success_response (resultImageUrl : js_value) : NextResponse :=
  {| res_status := 200;
     res_body := [ (str "message", VStr (str "Job processed successfully"));
                   (str "result_image_url", resultImageUrl) ] |}.

Definition failure_response (processError : js_error) : NextResponse :=
  {| res_status := 500;
     res_body := [ (str "error", VStr (str "Job processing failed"));
                   (str "details", VStr (message processError)) ] |}.

(** The fields of the record of a payload. *)
Definition payload_field (body : js_value) (k : string) : js_value :=
  opt_get (opt_get body (str "record")) (str k).

(** The check of line 48 (line 15 of part_000) on a parsed body. *)
Definition fails_validation (body : js_value) : bool :=
  falsy (payload_field body "id")
  || falsy (payload_field body "input_image_url")
  || falsy (payload_field body "status").

(** A request whose body parses to [body]. *)
Definition notification (body : js_value) : NextRequest :=
  {| req_json := Normal body |}.

(** The body of a request, [undefined] when it cannot be parsed. *)
Definition payload_of (req : NextRequest) : js_value :=
  match req_json req with
  | Normal body => body
  | Throw _ => VUndefined
  end.

(** Whether the [status] of the record in the payload is ["pending"]: what
    the guard of line 55 (line 25 of part_000) looks at. *)
Definition says_pending (req : NextRequest) : bool :=
  negb (strict_neq_str (payload_field (payload_of req) "status") (str "pending")).

(** The world after a delivery, and the response. *)
Definition deliver (h : handler) (env : Env) (req : NextRequest) (w : World)
  : World :=
  snd (POST h env req w).

Definition response_of (h : handler) (env : Env) (req : NextRequest) (w : World)
  : completion NextResponse :=
  fst (POST h env req w).

(** Deliveries one after the other, each with the answers of the outside
    world at its time. *)
Fixpoint deliver_all (h : handler) (ds : list (Env * NextRequest)) (w : World)
  : World :=
  match ds with
  | [] => w
  | (env, req) :: rest => deliver_all h rest (deliver h env req w)
  end.

(* ================================================================== *)
(** ** Concrete deliveries, for the examples *)

Definition text_eq (a b : js_value) : bool :=
  match a, b with
  | VStr s, VStr t => jsstring_eqb s t
  | _, _ => false
  end.

Definition job1 : job :=
  {| id := VStr (str "job-1");
     input_image_url := VStr (str "https://example.com/cat.png");
     status := str "pending";
     result_image_url := None;
     error_message := None;
     processed_at := None |}.

Definition world1 : World :=
  {| jobs := [job1]; calls := []; clock_reads := 0 |}.

(** The notification of the insertion of [job1]. *)
Definition payload1 : js_value :=
  VObj [ (str "type", VStr (str "INSERT"));
         (str "record",
          VObj [ (str "id", VStr (str "job-1"));
                 (str "input_image_url", VStr (str "https://example.com/cat.png"));
                 (str "status", VStr (str "pending")) ]) ].

Definition png : Blob := new_Blob [137; 80; 78; 71] (str "image/png").

Definition image_reply : Response :=
  {| ok := true; http_status := 200; statusText := str "OK";
     blob := Normal png;
     text := Normal [];
     json := Throw (Error (str "Unexpected token")) |}.

Definition not_found_reply : Response :=
  {| ok := false; http_status := 404; statusText := str "Not Found";
     blob := Normal (new_Blob [] []);
     text := Normal (str "not found");
     json := Throw (Error (str "Unexpected token")) |}.

Definition api_reply : Response :=
  {| ok := true; http_status := 200; statusText := str "OK";
     blob := Normal (new_Blob [] (str "application/json"));
     text := Normal [];
     json := Normal
       (VObj [ (str "created", VNum 1700000000%float);
               (str "data",
                VArr [ VObj [ (str "url",
                               VStr (str "https://cdn.example.com/out.png")) ] ]) ]) |}.

Definition time_stamp (k : nat) : jsstring :=
  str "2025-01-01T00:00:0" ++ String_of_N (N.of_nat k) ++ str ".000Z".

(** Everything works. *)
Definition env_ok : Env :=
  {| OPENAI_API_KEY := str "sk-test";
     eq_id := text_eq;
     select_error := fun _ => None;
     update_error := fun _ _ => None;
     fetch := fun r =>
       match r with
       | Get _ => Normal image_reply
       | Post _ _ _ => Normal api_reply
       end;
     Date_now := time_stamp |}.

(** The image cannot be downloaded. *)
Definition env_no_image : Env :=
  {| OPENAI_API_KEY := str "sk-test";
     eq_id := text_eq;
     select_error := fun _ => None;
     update_error := fun _ _ => None;
     fetch := fun r =>
       match r with
       | Get _ => Normal not_found_reply
       | Post _ _ _ => Normal api_reply
       end;
     Date_now := time_stamp |}.

(** The store refuses the write that finalises success, and only that one. *)
Definition env_complete_refused : Env :=
  {| OPENAI_API_KEY := str "sk-test";
     eq_id := text_eq;
     select_error := fun _ => None;
     update_error := fun _ p =>
       match set_result_image_url p with
       | Some _ => Some {| pg_message := str "permission denied" |}
       | None => None
       end;
     fetch := fun r =>
       match r with
       | Get _ => Normal image_reply
       | Post _ _ _ => Normal api_reply
       end;
     Date_now := time_stamp |}.


(** [job1] after it has been processed with success. *)
Definition job1_done : job :=
  {| id := VStr (str "job-1");
     input_image_url := VStr (str "https://example.com/cat.png");
     status := str "complete";
     result_image_url := Some (VStr (str "https://cdn.example.com/out.png"));
     error_message := None;
     processed_at := Some (time_stamp 0) |}.

Definition world_done : World :=
  {| jobs := [job1_done]; calls := []; clock_reads := 1 |}.

(** A record with the given members. *)
Definition payload_with (members : list (jsstring * js_value)) : js_value :=
  VObj [ (str "type", VStr (str "INSERT")); (str "record", VObj members) ].

(* ================================================================== *)
(** ** Further notions for the properties of the whole route *)

(** Whether a call is an HTTP POST. *)
Definition is_http_post (c : call) : bool :=
  match c with
  | Fetch (Post _ _ _) => true
  | _ => false
  end.

(** Whether a call is a write to the store. *)
Definition is_store_update (c : call) : bool :=
  match c with
  | StoreUpdate _ _ => true
  | _ => false
  end.

(** A call to the store names the row [v]; a call to the network names no
    row. *)
Definition on_row (v : js_value) (c : call) : Prop :=
  match c with
  | StoreSelect v' => v' = v
  | StoreUpdate v' _ => v' = v
  | Fetch _ => True
  end.

(** The [id] of the record in the body of a request. *)
Definition payload_id (req : NextRequest) : js_value :=
  payload_field (payload_of req) "id".

(** The answer of the store to the read of [v] in the world [w]. *)
Definition fetched (env : Env) (v : js_value) (w : World) : select_result :=
  match fst (supabase_select_single env v w) with
  | Normal r => r
  | Throw _ => {| sel_data := None; sel_error := None |}
  end.

(** The store cannot be reached for reads. *)
Definition env_store_down : Env :=
  {| OPENAI_API_KEY := str "sk-test";
     eq_id := text_eq;
     select_error := fun _ => Some {| pg_message := str "connection refused" |};
     update_error := fun _ _ => None;
     fetch := fun r =>
       match r with
       | Get _ => Normal image_reply
       | Post _ _ _ => Normal api_reply
       end;
     Date_now := time_stamp |}.

Definition rate_limited_reply : Response :=
  {| ok := false; http_status := 429; statusText := str "Too Many Requests";
     blob := Normal (new_Blob [] []);
     text := Normal (str "slow down");
     json := Throw (Error (str "Unexpected token")) |}.

(** The image API refuses the request. *)
Definition env_api_refuses : Env :=
  {| OPENAI_API_KEY := str "sk-test";
     eq_id := text_eq;
     select_error := fun _ => None;
     update_error := fun _ _ => None;
     fetch := fun r =>
       match r with
       | Get _ => Normal image_reply
       | Post _ _ _ => Normal rate_limited_reply
       end;
     Date_now := time_stamp |}.

Definition empty_data_reply : Response :=
  {| ok := true; http_status := 200; statusText := str "OK";
     blob := Normal (new_Blob [] (str "application/json"));
     text := Normal [];
     json := Normal (VObj [ (str "data", VArr []) ]) |}.

(** The image API answers with success and an empty [data] list. *)
Definition env_no_result : Env :=
  {| OPENAI_API_KEY := str "sk-test";
     eq_id := text_eq;
     select_error := fun _ => None;
     update_error := fun _ _ => None;
     fetch := fun r =>
       match r with
       | Get _ => Normal image_reply
       | Post _ _ _ => Normal empty_data_reply
       end;
     Date_now := time_stamp |}.

Definition infinite_url_reply : Response :=
  {| ok := true; http_status := 200; statusText := str "OK";
     blob := Normal (new_Blob [] (str "application/json"));
     text := Normal [];
     json := Normal
       (VObj [ (str "data",
                VArr [ VObj [ (str "url", VNum PrimFloat.infinity) ] ]) ]) |}.

(** The image API answers with success and the body
    [{"data":[{"url":1e999}]}], whose [url] parses to [Infinity]. *)
Definition env_infinite_url : Env :=
  {| OPENAI_API_KEY := str "sk-test";
     eq_id := text_eq;
     select_error := fun _ => None;
     update_error := fun _ _ => None;
     fetch := fun r =>
       match r with
       | Get _ => Normal image_reply
       | Post _ _ _ => Normal infinite_url_reply
       end;
     Date_now := time_stamp |}.

(** The network is down: every [fetch] rejects. *)
Definition env_offline : Env :=
  {| OPENAI_API_KEY := str "sk-test";
     eq_id := text_eq;
     select_error := fun _ => None;
     update_error := fun _ _ => None;
     fetch := fun _ => Throw (Error (str "fetch failed"));
     Date_now := time_stamp |}.

(** A second job, which no notification of the examples names. *)
Definition job2 : job :=
  {| id := VStr (str "job-2");
     input_image_url := VStr (str "https://example.com/dog.png");
     status := str "pending";
     result_image_url := None;
     error_message := None;
     processed_at := None |}.

Definition world2 : World :=
  {| jobs := [job1; job2]; calls := []; clock_reads := 0 |}.

(** The notification of a job whose image is the data URL of [png]. *)
Definition payload_inline : js_value :=
  payload_with
    [ (str "id", VStr (str "job-1"));
      (str "input_image_url",
       VStr (data_url (str "image/png") [137; 80; 78; 71]));
      (str "status", VStr (str "pending")) ].

(** The notification of a job whose [input_image_url] is a number. *)
Definition payload_number : js_value :=
  payload_with
    [ (str "id", VStr (str "job-1"));
      (str "input_image_url", VNum 42%float);
      (str "status", VStr (str "pending")) ].
(* ================================================================== *)
(** * Properties *)

(** [lia] reads division and remainder by a constant. *)
Ltac Zify.zify_post_hook ::= Z.to_euclidean_division_equations.

(** ** Strings *)

Lemma jsstring_eqb_refl (s : jsstring) : jsstring_eqb s s = true.
Proof.
  induction s as [| c s IH]; simpl; [reflexivity |].
  now rewrite N.eqb_refl, IH.
Qed.

Lemma jsstring_eqb_eq (s t : jsstring) : jsstring_eqb s t = true <-> s = t.
Proof.
  split.
  - revert t; induction s as [| c s IH]; intros [| d t] H; simpl in H;
      try discriminate; [reflexivity |].
    apply andb_true_iff in H as [Hc Hs].
    apply N.eqb_eq in Hc. apply IH in Hs. now subst.
  - intros ->. apply jsstring_eqb_refl.
Qed.

Lemma strip_prefix_app (p s : jsstring) : strip_prefix p (p ++ s) = Some s.
Proof.
  induction p as [| c p IH]; simpl; [reflexivity |].
  now rewrite N.eqb_refl.
Qed.

Lemma strip_prefix_Some (p s r : jsstring) :
  strip_prefix p s = Some r -> s = p ++ r.
Proof.
  revert s; induction p as [| c p IH]; intros s H; simpl in H.
  - now injection H as ->.
  - destruct s as [| d s]; [discriminate |].
    destruct (N.eqb_spec c d) as [-> |]; [| discriminate].
    simpl. f_equal. now apply IH.
Qed.

(** ** The early returns of [POST] *)

Lemma POST_invalid_payload (h : handler) (env : Env) (body : js_value) (w : World) :
  fails_validation body = true ->
  POST h env (notification body) w = (Normal invalid_payload_response, w).
Proof.
  unfold fails_validation, payload_field. intros H.
  destruct h; unfold POST, RouteTs.POST, Part000.POST, try_catch, bind, await,
    notification, req_json; cbv zeta; rewrite H; reflexivity.
Qed.

Lemma POST_not_pending (h : handler) (env : Env) (body : js_value) (w : World) :
  fails_validation body = false ->
  strict_neq_str (payload_field body "status") (str "pending") = true ->
  POST h env (notification body) w = (Normal not_pending_response, w).
Proof.
  unfold fails_validation, payload_field. intros H Hs.
  destruct h; unfold POST, RouteTs.POST, Part000.POST, try_catch, bind, await,
    notification, req_json; cbv zeta; rewrite H, Hs; reflexivity.
Qed.

Lemma POST_unreadable_body (h : handler) (env : Env) (e : js_error) (w : World) :
  POST h env {| req_json := Throw e |} w
  = (Normal (NextResponse_json
               [ (str "error", VStr (str "Internal server error"));
                 (str "details", VStr (message e)) ] 500), w).
Proof. destruct h; reflexivity. Qed.

(** ** Validation and the status guard *)

(** C5: a payload whose record lacks [id], [input_image_url] or [status] is
    answered with status 400, and the world is left as it was: no call to the
    store is made, so no row is read or written. *)
Theorem C5_missing_field_is_rejected
    (h : handler) (env : Env) (body : js_value) (w : World) :
  payload_field body "id" = VUndefined
  \/ payload_field body "input_image_url" = VUndefined
  \/ payload_field body "status" = VUndefined ->
  POST h env (notification body) w = (Normal invalid_payload_response, w)
  /\ res_status invalid_payload_response = 400.
Proof.
  intros H. split; [| reflexivity].
  apply POST_invalid_payload. unfold fails_validation.
  destruct H as [H | [H | H]]; rewrite H; simpl;
    rewrite ?orb_true_r; reflexivity.
Qed.

Lemma C5_witness :
  POST route_ts env_ok
    (notification
       (payload_with [ (str "id", VStr (str "job-1"));
                       (str "status", VStr (str "pending")) ]))
    world1
  = (Normal invalid_payload_response, world1)
  /\ res_status invalid_payload_response = 400.
Proof.
  apply (C5_missing_field_is_rejected route_ts env_ok
           (payload_with [ (str "id", VStr (str "job-1"));
                           (str "status", VStr (str "pending")) ])
           world1).
  right; left; reflexivity.
Defined.

(** C9: the check is one of truthiness.  A payload in which [id],
    [input_image_url] or [status] is falsy (the empty string, zero, [false]
    and [null] are) is answered with status 400 and leaves the world as it
    was, whether or not the member is there. *)
Theorem C9_falsy_field_is_rejected
    (h : handler) (env : Env) (body : js_value) (w : World) :
  falsy (payload_field body "id") = true
  \/ falsy (payload_field body "input_image_url") = true
  \/ falsy (payload_field body "status") = true ->
  (POST h env (notification body) w = (Normal invalid_payload_response, w)
   /\ res_status invalid_payload_response = 400)
  /\ falsy (VStr []) = true /\ falsy (VNum 0%float) = true
  /\ falsy (VBool false) = true /\ falsy VNull = true.
Proof.
  intros H. repeat split; try reflexivity.
  apply POST_invalid_payload. unfold fails_validation.
  destruct H as [H | [H | H]]; rewrite H; simpl;
    rewrite ?orb_true_r; reflexivity.
Qed.

Lemma C9_witness :
  (POST part_000 env_ok
     (notification
        (payload_with [ (str "id", VNum 0%float);
                        (str "input_image_url", VStr (str "https://example.com/cat.png"));
                        (str "status", VStr (str "pending")) ]))
     world1
   = (Normal invalid_payload_response, world1)
   /\ res_status invalid_payload_response = 400)
  /\ falsy (VStr []) = true /\ falsy (VNum 0%float) = true
  /\ falsy (VBool false) = true /\ falsy VNull = true.
Proof.
  apply (C9_falsy_field_is_rejected part_000 env_ok
           (payload_with [ (str "id", VNum 0%float);
                           (str "input_image_url", VStr (str "https://example.com/cat.png"));
                           (str "status", VStr (str "pending")) ])
           world1).
  left; reflexivity.
Defined.

(** C4, as stated, fails: a [status] that is there and is not ["pending"]
    does not give 200 when the payload does not pass the check of the
    required fields, be it that [id] is absent or that [status] is the empty
    string. *)
Lemma C4_status_present_yet_400 :
  (let body := payload_with [ (str "status", VStr (str "complete")) ] in
   payload_field body "status" = VStr (str "complete")
   /\ strict_neq_str (payload_field body "status") (str "pending") = true
   /\ POST route_ts env_ok (notification body) world1
      = (Normal invalid_payload_response, world1))
  /\ (let body := payload_with [ (str "id", VStr (str "job-1"));
                                 (str "input_image_url", VStr (str "https://example.com/cat.png"));
                                 (str "status", VStr []) ] in
      payload_field body "status" = VStr []
      /\ strict_neq_str (payload_field body "status") (str "pending") = true
      /\ POST route_ts env_ok (notification body) world1
         = (Normal invalid_payload_response, world1))
  /\ res_status invalid_payload_response = 400.
Proof. repeat split. Qed.

(** C4, amended: when the three required fields are truthy and [status] is
    not ["pending"], the answer is 200 with the informational message and
    the world is left as it was (no call to the store, no fetch); a second
    delivery of the same notification, whatever the outside world answers
    then, does the same. *)
Theorem C4_not_pending_is_a_no_op
    (h : handler) (env env' : Env) (body : js_value) (w : World) :
  fails_validation body = false ->
  strict_neq_str (payload_field body "status") (str "pending") = true ->
  POST h env (notification body) w = (Normal not_pending_response, w)
  /\ POST h env' (notification body) (deliver h env (notification body) w)
     = (Normal not_pending_response, w)
  /\ res_status not_pending_response = 200.
Proof.
  intros Hv Hs.
  assert (H1 : forall e, POST h e (notification body) w
                         = (Normal not_pending_response, w))
    by (intros e; now apply POST_not_pending).
  unfold deliver. rewrite (H1 env). simpl. now rewrite (H1 env').
Qed.

Lemma C4_witness :
  let body := payload_with [ (str "id", VStr (str "job-1"));
                             (str "input_image_url", VStr (str "https://example.com/cat.png"));
                             (str "status", VStr (str "complete")) ] in
  POST route_ts env_ok (notification body) world_done
  = (Normal not_pending_response, world_done)
  /\ POST route_ts env_no_image (notification body)
       (deliver route_ts env_ok (notification body) world_done)
     = (Normal not_pending_response, world_done)
  /\ res_status not_pending_response = 200.
Proof.
  apply (C4_not_pending_is_a_no_op route_ts env_ok env_no_image
           (payload_with [ (str "id", VStr (str "job-1"));
                           (str "input_image_url", VStr (str "https://example.com/cat.png"));
                           (str "status", VStr (str "complete")) ])
           world_done); reflexivity.
Defined.

(** ** Terminal states *)

Lemma deliver_not_pending (h : handler) (env : Env) (req : NextRequest) (w : World) :
  says_pending req = false -> deliver h env req w = w.
Proof.
  unfold says_pending, payload_of, deliver. destruct req as [[body | e]]; simpl.
  - intros Hs. apply negb_false_iff in Hs.
    destruct (fails_validation body) eqn:Hv.
    + change {| req_json := Normal body |} with (notification body).
      now rewrite POST_invalid_payload.
    + change {| req_json := Normal body |} with (notification body).
      now rewrite POST_not_pending.
  - intros _. now rewrite POST_unreadable_body.
Qed.

(** C3, as stated, fails: the guard reads the status in the payload, not the
    stored one.  A row whose stored status is ["complete"] is written again
    when a notification that still says ["pending"] is delivered; here the
    download fails and the row ends as ["failed"]. *)
Lemma C3_stored_complete_is_overwritten :
  map status (jobs world_done) = [str "complete"]
  /\ map status
       (jobs (deliver route_ts env_no_image (notification payload1) world_done))
     = [str "failed"]
  /\ map status
       (jobs (deliver part_000 env_no_image (notification payload1) world_done))
     = [str "failed"].
Proof. repeat split. Qed.

(** C3, amended: a delivery changes something only when the status in its
    payload is ["pending"].  Deliveries whose payload says anything else (or
    cannot be read) leave the world as it was, however many there are and
    whatever the stored rows hold; so they never move a row out of
    ["complete"] or ["failed"]. *)
Theorem C3_only_pending_payloads_write
    (h : handler) (ds : list (Env * NextRequest)) (w : World) :
  forallb (fun d => negb (says_pending (snd d))) ds = true ->
  deliver_all h ds w = w.
Proof.
  revert w; induction ds as [| [env req] ds IH]; intros w H; simpl in *.
  - reflexivity.
  - apply andb_true_iff in H as [Hd Hds]. apply negb_true_iff in Hd.
    rewrite deliver_not_pending by exact Hd. now apply IH.
Qed.

Lemma C3_witness :
  deliver_all route_ts
    [ (env_ok,
       notification
         (payload_with [ (str "id", VStr (str "job-1"));
                         (str "input_image_url", VStr (str "https://example.com/cat.png"));
                         (str "status", VStr (str "complete")) ]));
      (env_no_image, {| req_json := Throw (Error (str "Unexpected end of JSON input")) |}) ]
    world_done
  = world_done.
Proof.
  apply (C3_only_pending_payloads_write route_ts
           [ (env_ok,
              notification
                (payload_with [ (str "id", VStr (str "job-1"));
                                (str "input_image_url", VStr (str "https://example.com/cat.png"));
                                (str "status", VStr (str "complete")) ]));
             (env_no_image, {| req_json := Throw (Error (str "Unexpected end of JSON input")) |}) ]
           world_done).
  reflexivity.
Defined.

(** ** The pipeline *)

Lemma select_single_row (env : Env) (v : js_value) (w : World) (r0 : job) :
  select_error env v = None ->
  filter (selected env v) (jobs w) = [r0] ->
  supabase_select_single env v w
  = (Normal {| sel_data := Some r0; sel_error := None |},
     record_call (StoreSelect v) w).
Proof.
  intros He Hf. unfold supabase_select_single. now rewrite He, Hf.
Qed.

Lemma update_is_normal (env : Env) (p : patch) (v : js_value) (w : World) :
  exists r, supabase_update env p v w
            = (Normal r, snd (supabase_update env p v w)).
Proof.
  unfold supabase_update. destruct (update_error env v p); eexists; reflexivity.
Qed.

(** A payload that passes the guards and whose row loads reaches the inner
    [try]; what it throws is handed to the [catch]. *)
Lemma POST_pending (h : handler) (env : Env) (body : js_value) (w : World) (r0 : job) :
  fails_validation body = false ->
  payload_field body "status" = VStr (str "pending") ->
  select_error env (payload_field body "id") = None ->
  filter (selected env (payload_field body "id")) (jobs w) = [r0] ->
  POST h env (notification body) w
  = match process h env (payload_field body "id")
            (payload_field body "input_image_url")
            (claimed env (payload_field body "id") w) with
    | (Normal response, w3) => (Normal response, w3)
    | (Throw e, w3) => on_process_error h env (payload_field body "id") e w3
    end.
Proof.
  intros Hv Hs He Hf. unfold fails_validation, payload_field in *.
  assert (Hon : forall e w3, exists r w4,
             on_process_error h env
               (opt_get (opt_get body (str "record")) (str "id")) e w3
             = (Normal r, w4)).
  { intros e w3.
    destruct h; unfold on_process_error, RouteTs.on_process_error,
      Part000.on_process_error, bind, ret, new_Date_toISOString;
      match goal with
      | |- context [supabase_update ?e ?p ?v ?w] =>
          destruct (update_is_normal e p v w) as [r Hr]; rewrite Hr
      end; eauto. }
  destruct (update_is_normal env processing_update
              (opt_get (opt_get body (str "record")) (str "id"))
              (record_call
                 (StoreSelect (opt_get (opt_get body (str "record")) (str "id"))) w))
    as [r Hr].
  fold (claimed env (opt_get (opt_get body (str "record")) (str "id")) w) in Hr.
  destruct (process h env (opt_get (opt_get body (str "record")) (str "id"))
              (opt_get (opt_get body (str "record")) (str "input_image_url"))
              (claimed env (opt_get (opt_get body (str "record")) (str "id")) w))
    as [[response | e] w3] eqn:Hp;
    [| destruct (Hon e w3) as (r' & w4 & H4); rewrite H4 ];
    destruct h; unfold POST, RouteTs.POST, Part000.POST, process, on_process_error in *;
    unfold try_catch at 1; unfold bind at 1; unfold await, notification, req_json;
    cbv zeta; rewrite Hv, Hs;
    change (strict_neq_str (VStr (str "pending")) (str "pending")) with false;
    cbv iota; unfold bind at 1;
    rewrite (select_single_row _ _ _ _ He Hf); cbn [sel_error sel_data is_some orb negb];
    unfold bind at 1; rewrite Hr; unfold try_catch; rewrite Hp; try rewrite H4;
    reflexivity.
Qed.

(** *** The table under writes *)

Lemma selected_apply_patch (env : Env) (v : js_value) (p : patch) (r : job) :
  selected env v (apply_patch p r) = selected env v r.
Proof. reflexivity. Qed.

(** A write that names [status] makes an earlier write of [status] alone
    invisible. *)
Lemma write_rows_after_processing (env : Env) (v : js_value) (p : patch)
    (s : jsstring) (rows : list job) :
  set_status p = Some s ->
  write_rows env v p (write_rows env v processing_update rows)
  = write_rows env v p rows.
Proof.
  intros Hp. unfold write_rows. rewrite map_map. apply map_ext. intros r.
  destruct (selected env v r) eqn:Hsel.
  - rewrite selected_apply_patch, Hsel.
    unfold apply_patch; simpl. now rewrite Hp.
  - now rewrite Hsel.
Qed.

Lemma jobs_claimed (env : Env) (v : js_value) (w : World) :
  jobs (claimed env v w) = jobs w
  \/ jobs (claimed env v w) = write_rows env v processing_update (jobs w).
Proof.
  unfold claimed, supabase_update.
  destruct (update_error env v processing_update); simpl; auto.
Qed.

Lemma calls_claimed (env : Env) (v : js_value) (w : World) :
  calls (claimed env v w)
  = calls w ++ [StoreSelect v; StoreUpdate v processing_update].
Proof.
  unfold claimed, supabase_update.
  destruct (update_error env v processing_update); simpl;
    now rewrite <- app_assoc.
Qed.

Lemma clock_claimed (env : Env) (v : js_value) (w : World) :
  clock_reads (claimed env v w) = clock_reads w.
Proof.
  unfold claimed, supabase_update.
  destruct (update_error env v processing_update); reflexivity.
Qed.

Lemma write_rows_claimed (env : Env) (v : js_value) (p : patch) (s : jsstring)
    (w : World) :
  set_status p = Some s ->
  write_rows env v p (jobs (claimed env v w)) = write_rows env v p (jobs w).
Proof.
  intros Hp. destruct (jobs_claimed env v w) as [-> | ->]; [reflexivity |].
  now apply write_rows_after_processing with s.
Qed.

Lemma in_write_rows (env : Env) (v : js_value) (p : patch) (rows : list job)
    (r' : job) :
  In r' (write_rows env v p rows) ->
  selected env v r' = true ->
  exists r, In r rows /\ selected env v r = true /\ r' = apply_patch p r.
Proof.
  unfold write_rows. intros Hin Hsel. apply in_map_iff in Hin as (r & Hr & Hin).
  exists r. destruct (selected env v r) eqn:Hs.
  - auto.
  - subst r'. congruence.
Qed.

(** *** Acquiring the image *)

(** The acquisition makes calls only; its outcome does not depend on the
    world it starts from. *)
Lemma acquire_image_run (h : handler) (env : Env) (url : js_value) (w w0 : World) :
  exists cs,
    acquire_image h env url w = (fst (acquire_image h env url w0), with_calls cs w).
Proof.
  assert (Hnil : w = with_calls [] w)
    by (destruct w; unfold with_calls; simpl; now rewrite app_nil_r).
  destruct h; simpl.
  - unfold RouteTs.acquire_image, bind, await, throw, do_fetch.
    destruct (RouteTs.call_isBase64DataUrl url) as [[|] | e].
    + exists []. simpl. now rewrite <- Hnil.
    + exists [Fetch (Get url)].
      destruct (fetch env (Get url)) as [r | e]; [destruct (ok r) |]; reflexivity.
    + exists []. simpl. now rewrite <- Hnil.
  - unfold Part000.acquire_image, bind, await, throw, do_fetch.
    exists [Fetch (Get url)].
    destruct (fetch env (Get url)) as [r | e]; [destruct (ok r) |]; reflexivity.
Qed.

(** *** The run that succeeds *)

(** The body of the success response, as JSON carries it. *)
Lemma success_body (u : js_value) :
  truthy u = true ->
  NextResponse_json
    [ (str "message", VStr (str "Job processed successfully"));
      (str "result_image_url", u) ] 200
  = success_response (JSON_value u).
Proof. destruct u; try discriminate; reflexivity. Qed.

Lemma process_success (h : handler) (env : Env) (id url : js_value) (w w0 : World)
    (imageBlob : Blob) (openAIResponse : Response) (openAIResult : js_value) :
  let resultImageUrl :=
    opt_get (opt_index0 (opt_get openAIResult (str "data"))) (str "url") in
  let p := complete_update h resultImageUrl (Date_now env (clock_reads w)) in
  fst (acquire_image h env url w0) = Normal imageBlob ->
  fetch env (variations_request h env imageBlob) = Normal openAIResponse ->
  ok openAIResponse = true ->
  json openAIResponse = Normal openAIResult ->
  truthy resultImageUrl = true ->
  update_error env id p = None ->
  exists cs w',
    process h env id url w
    = (Normal (success_response (JSON_value resultImageUrl)), w')
    /\ jobs w' = write_rows env id p (jobs w)
    /\ calls w' = calls w ++ cs ++ [StoreUpdate id p].
Proof.
  intros u p Ha Hf Hok Hj Hu Hup.
  destruct (acquire_image_run h env url w w0) as [cs Hrun].
  rewrite Ha in Hrun.
  assert (Hbody := success_body u Hu).
  exists (cs ++ [Fetch (variations_request h env imageBlob)]).
  destruct h; simpl in *;
    unfold RouteTs.process, Part000.process, RouteTs.submit, Part000.submit,
      bind, await, throw, ret, do_fetch, new_Date_toISOString, supabase_update;
    rewrite Hrun, Hf, Hok; cbn [negb]; rewrite Hj; fold u;
    unfold falsy; rewrite Hu; cbn [negb];
    cbn [jobs calls clock_reads with_calls record_call]; fold p;
    unfold p in Hup |- *; rewrite Hup;
    cbn [upd_error]; rewrite Hbody;
    eexists; (split; [| split]);
    [ reflexivity
    | reflexivity
    | simpl; now rewrite <- !app_assoc
    | reflexivity
    | reflexivity
    | simpl; now rewrite <- !app_assoc ].
Qed.

(** C1, as stated, fails for the handler of part_000: the update that
    finalises success names [status] and [result_image_url] only, so
    [processed_at] stays unset after a run in which everything works. *)
Lemma C1_part_000_leaves_processed_at :
  response_of part_000 env_ok (notification payload1) world1
  = Normal (success_response (VStr (str "https://cdn.example.com/out.png")))
  /\ map status (jobs (deliver part_000 env_ok (notification payload1) world1))
     = [str "complete"]
  /\ map processed_at (jobs (deliver part_000 env_ok (notification payload1) world1))
     = [None].
Proof. repeat split. Qed.

(** What the completing update leaves in [result_image_url]. *)
Lemma write_column_truthy (u : js_value) (old : option js_value) :
  truthy u = true ->
  write_column (Some u) old = column_of (JSON_value u).
Proof.
  destruct u; try discriminate; try reflexivity.
  intros _. unfold write_column. simpl.
  destruct (is_nan x || is_infinity x); [reflexivity |].
  now destruct (PrimFloat.eqb x 0).
Qed.

Lemma JSON_value_string (s : jsstring) : JSON_value (VStr s) = VStr s.
Proof. reflexivity. Qed.

(** C1, amended: for a payload with truthy [id] and [input_image_url] and
    status ["pending"], whose row loads, whose image is acquired, whose call
    to the image API answers with success and a truthy [data[0].url], and
    whose completing update the store accepts, the answer is 200 with that
    URL as [result_image_url]; the last call is the completing update, and
    every selected row ends with status ["complete"] and that URL.  The URL
    is returned and stored as JSON carries it: a string as it is, and a
    value with no JSON text of its own (a number that is not finite) as
    [null].  The handler of route.ts also writes [processed_at]; the one of
    part_000 leaves [processed_at] as it was. *)
Theorem C1_success_is_stored_and_returned
    (h : handler) (env : Env) (body : js_value) (w : World) (r0 : job)
    (imageBlob : Blob) (openAIResponse : Response) (openAIResult : js_value) :
  let id := payload_field body "id" in
  let url := payload_field body "input_image_url" in
  let resultImageUrl :=
    opt_get (opt_index0 (opt_get openAIResult (str "data"))) (str "url") in
  let carried := JSON_value resultImageUrl in
  let now := Date_now env (clock_reads w) in
  let w' := deliver h env (notification body) w in
  truthy id = true ->
  truthy url = true ->
  payload_field body "status" = VStr (str "pending") ->
  select_error env id = None ->
  filter (selected env id) (jobs w) = [r0] ->
  fst (acquire_image h env url w) = Normal imageBlob ->
  fetch env (variations_request h env imageBlob) = Normal openAIResponse ->
  ok openAIResponse = true ->
  json openAIResponse = Normal openAIResult ->
  truthy resultImageUrl = true ->
  update_error env id (complete_update h resultImageUrl now) = None ->
  response_of h env (notification body) w = Normal (success_response carried)
  /\ res_status (success_response carried) = 200
  /\ lookup (str "result_image_url") (res_body (success_response carried))
     = carried
  /\ (forall s, resultImageUrl = VStr s -> carried = VStr s)
  /\ (exists cs,
        calls w'
        = calls w ++ cs ++ [StoreUpdate id (complete_update h resultImageUrl now)])
  /\ jobs w' = write_rows env id (complete_update h resultImageUrl now) (jobs w)
  /\ (forall r', In r' (jobs w') -> selected env id r' = true ->
        status r' = str "complete"
        /\ result_image_url r' = column_of carried
        /\ (h = route_ts -> processed_at r' = Some now))
  /\ (h = part_000 -> map processed_at (jobs w') = map processed_at (jobs w)).
Proof.
  intros id url u carried now w' Hid Hurl Hst He Hf Ha Hfe Hok Hj Hu Hup.
  assert (Hv : fails_validation body = false).
  { unfold fails_validation, falsy. fold id url. rewrite Hid, Hurl, Hst.
    reflexivity. }
  assert (Hp := POST_pending h env body w r0 Hv Hst He Hf). fold id url in Hp.
  destruct (process_success h env id url (claimed env id w) w imageBlob
              openAIResponse openAIResult Ha Hfe Hok Hj Hu) as (cs & w3 & Hrun & Hjobs & Hcalls).
  { rewrite clock_claimed. exact Hup. }
  rewrite clock_claimed in Hjobs, Hcalls. fold u carried now in Hrun, Hjobs, Hcalls.
  rewrite Hrun in Hp.
  assert (Hw' : w' = w3) by (unfold w', deliver; now rewrite Hp).
  assert (Hst' : set_status (complete_update h u now) = Some (str "complete"))
    by (destruct h; reflexivity).
  rewrite (write_rows_claimed _ _ _ _ _ Hst') in Hjobs.
  unfold response_of. rewrite Hp, Hw'. simpl fst.
  split; [reflexivity |]. split; [reflexivity |]. split; [reflexivity |].
  split; [intros s Hs; unfold carried; now rewrite Hs |]. split.
  { exists ([StoreSelect id; StoreUpdate id processing_update] ++ cs).
    rewrite Hcalls, calls_claimed. now rewrite <- !app_assoc. }
  split; [exact Hjobs |]. split.
  - intros r' Hin Hsel. rewrite Hjobs in Hin.
    apply in_write_rows in Hin as (r & _ & _ & ->); [| exact Hsel].
    assert (Hcol : result_image_url (apply_patch (complete_update h u now) r)
                   = column_of carried).
    { unfold carried. rewrite <- (write_column_truthy u (result_image_url r) Hu).
      now destruct h. }
    split; [now destruct h |]. split; [exact Hcol |].
    intros ->. reflexivity.
  - intros ->. rewrite Hjobs. unfold write_rows. rewrite map_map.
    apply map_ext. intros r. now destruct (selected env id r).
Qed.

Lemma C1_witness :
  let u := VStr (str "https://cdn.example.com/out.png") in
  let w' := deliver route_ts env_ok (notification payload1) world1 in
  response_of route_ts env_ok (notification payload1) world1
  = Normal (success_response u)
  /\ res_status (success_response u) = 200
  /\ lookup (str "result_image_url") (res_body (success_response u)) = u
  /\ (forall s, u = VStr s -> u = VStr s)
  /\ (exists cs,
        calls w'
        = calls world1 ++ cs
          ++ [StoreUpdate (VStr (str "job-1"))
                (complete_update route_ts u (time_stamp 0))])
  /\ jobs w'
     = write_rows env_ok (VStr (str "job-1"))
         (complete_update route_ts u (time_stamp 0)) (jobs world1)
  /\ (forall r', In r' (jobs w') ->
        selected env_ok (VStr (str "job-1")) r' = true ->
        status r' = str "complete"
        /\ result_image_url r' = Some u
        /\ (route_ts = route_ts -> processed_at r' = Some (time_stamp 0)))
  /\ (route_ts = part_000 ->
      map processed_at (jobs w') = map processed_at (jobs world1)).
Proof.
  apply (C1_success_is_stored_and_returned route_ts env_ok payload1 world1 job1
           png api_reply
           (VObj [ (str "created", VNum 1700000000%float);
                   (str "data",
                    VArr [ VObj [ (str "url",
                                   VStr (str "https://cdn.example.com/out.png")) ] ]) ]));
    reflexivity.
Defined.

(** A [url] that is truthy and has no JSON text of its own: the answer is
    200 with [result_image_url] null, and the row ends ["complete"] with
    [result_image_url] NULL. *)
Lemma result_url_that_is_not_finite (h : handler) :
  let w' := deliver h env_infinite_url (notification payload1) world1 in
  response_of h env_infinite_url (notification payload1) world1
  = Normal (success_response VNull)
  /\ map status (jobs w') = [str "complete"]
  /\ map result_image_url (jobs w') = [None]
  /\ map error_message (jobs w') = [None].
Proof. destruct h; repeat split. Qed.

(** *** Every way through [submit] and the [catch] *)

Lemma calls_update (env : Env) (p : patch) (v : js_value) (w : World) :
  calls (snd (supabase_update env p v w)) = calls w ++ [StoreUpdate v p].
Proof. unfold supabase_update. now destruct (update_error env v p). Qed.

Lemma jobs_update (env : Env) (p : patch) (v : js_value) (w : World) :
  jobs (snd (supabase_update env p v w))
  = match update_error env v p with
    | None => write_rows env v p (jobs w)
    | Some _ => jobs w
    end.
Proof. unfold supabase_update. now destruct (update_error env v p). Qed.

(** [submit] throws after the call to the image API, or it reaches the
    completing update with a truthy URL; then it throws when the store
    refuses the write and returns the success response when it accepts. *)
Lemma submit_cases (h : handler) (env : Env) (id : js_value) (imageBlob : Blob)
    (w : World) :
  let w1 := record_call (Fetch (variations_request h env imageBlob)) w in
  (exists e, submit h env id imageBlob w = (Throw e, w1))
  \/ (exists u,
        truthy u = true
        /\ let p := complete_update h u (Date_now env (clock_reads w)) in
           submit h env id imageBlob w
           = match update_error env id p with
             | Some err =>
                 (Throw (Error (str "Failed to update job in Supabase: "
                                  ++ pg_message err)),
                  record_call (StoreUpdate id p) (clock_read h w1))
             | None =>
                 (Normal (success_response (JSON_value u)),
                  {| jobs := write_rows env id p (jobs w);
                     calls := calls w1 ++ [StoreUpdate id p];
                     clock_reads := clock_reads (clock_read h w1) |})
             end).
Proof.
  intros w1.
  destruct h; unfold submit, RouteTs.submit, Part000.submit, bind, await, throw,
    ret, do_fetch, new_Date_toISOString, supabase_update; simpl variations_request;
    fold w1;
    (destruct (fetch env _) as [r | e]; [| left; eauto]);
    (destruct (ok r); cbn [negb];
       [| destruct (text r); left; eauto ]);
    (destruct (json r) as [j | e]; [| left; eauto]);
    (destruct (truthy (opt_get (opt_index0 (opt_get j (str "data"))) (str "url")))
       eqn:Hu; unfold falsy; rewrite Hu; cbn [negb]; [| left; eauto]);
    right; exists (opt_get (opt_index0 (opt_get j (str "data"))) (str "url"));
    (split; [exact Hu |]); cbv zeta;
    cbn [jobs calls clock_reads record_call clock_read complete_update];
    (destruct (update_error env id _) as [err |]; [reflexivity |]);
    cbn [upd_error]; rewrite (success_body _ Hu); reflexivity.
Qed.

Lemma on_process_error_run (h : handler) (env : Env) (id : js_value)
    (e : js_error) (w3 : World) :
  let p := failed_update h e (Date_now env (clock_reads w3)) in
  on_process_error h env id e w3
  = (Normal (failure_response e), snd (supabase_update env p id (clock_read h w3))).
Proof.
  destruct h; unfold on_process_error, RouteTs.on_process_error,
    Part000.on_process_error, bind, ret, new_Date_toISOString, supabase_update;
    simpl; destruct (update_error env id _); reflexivity.
Qed.

(** When the try body throws, no row has been written by it. *)
Lemma process_throws_keep_jobs (h : handler) (env : Env) (id url : js_value)
    (w w3 : World) (e : js_error) :
  process h env id url w = (Throw e, w3) ->
  jobs w3 = jobs w /\ exists cs, calls w3 = calls w ++ cs.
Proof.
  intros Hp.
  destruct (acquire_image_run h env url w w) as [cs Hrun].
  assert (Hproc : process h env id url w
                  = bind (acquire_image h env url) (submit h env id) w)
    by (destruct h; reflexivity).
  rewrite Hproc in Hp. unfold bind in Hp. rewrite Hrun in Hp.
  destruct (fst (acquire_image h env url w)) as [imageBlob | e0].
  - destruct (submit_cases h env id imageBlob (with_calls cs w))
      as [[e1 H1] | (u & _ & H1)]; cbv zeta in H1; rewrite H1 in Hp.
    + injection Hp as _ <-. split; [reflexivity |].
      exists (cs ++ [Fetch (variations_request h env imageBlob)]).
      simpl. now rewrite <- app_assoc.
    + destruct (update_error env id _); [| discriminate].
      injection Hp as _ <-. split; [destruct h; reflexivity |].
      exists (cs ++ [ Fetch (variations_request h env imageBlob);
                      StoreUpdate id
                        (complete_update h u
                           (Date_now env (clock_reads (with_calls cs w)))) ]).
      destruct h; simpl; now rewrite <- !app_assoc.
  - injection Hp as _ <-. split; [reflexivity |]. now exists cs.
Qed.

(** What the inner [catch] does with an error of the [try] body. *)
Lemma caught_by_inner_catch
    (h : handler) (env : Env) (body : js_value) (w : World) (r0 : job)
    (e : js_error) (w3 : World) :
  let id := payload_field body "id" in
  let url := payload_field body "input_image_url" in
  let now := Date_now env (clock_reads w3) in
  let p := failed_update h e now in
  let w' := deliver h env (notification body) w in
  truthy id = true ->
  truthy url = true ->
  payload_field body "status" = VStr (str "pending") ->
  select_error env id = None ->
  filter (selected env id) (jobs w) = [r0] ->
  process h env id url (claimed env id w) = (Throw e, w3) ->
  response_of h env (notification body) w = Normal (failure_response e)
  /\ calls w' = calls w3 ++ [StoreUpdate id p]
  /\ jobs w' = match update_error env id p with
               | None => write_rows env id p (jobs (claimed env id w))
               | Some _ => jobs (claimed env id w)
               end
  /\ (update_error env id p = None ->
      forall r', In r' (jobs w') -> selected env id r' = true ->
        status r' = str "failed"
        /\ error_message r' = Some (message e)
        /\ (h = route_ts -> processed_at r' = Some now)).
Proof.
  intros id url now p w' Hid Hurl Hst He Hf Hthrow.
  assert (Hv : fails_validation body = false).
  { unfold fails_validation, falsy. fold id url. rewrite Hid, Hurl, Hst.
    reflexivity. }
  assert (Hp := POST_pending h env body w r0 Hv Hst He Hf). fold id url in Hp.
  rewrite Hthrow, on_process_error_run in Hp. fold now p in Hp.
  assert (Hw' : w' = snd (supabase_update env p id (clock_read h w3)))
    by (unfold w', deliver; now rewrite Hp).
  destruct (process_throws_keep_jobs _ _ _ _ _ _ _ Hthrow) as [Hj3 _].
  assert (Hjobs : jobs w' = match update_error env id p with
                            | None => write_rows env id p (jobs (claimed env id w))
                            | Some _ => jobs (claimed env id w)
                            end).
  { rewrite Hw', jobs_update, <- Hj3. now destruct h. }
  unfold response_of. rewrite Hp. simpl fst.
  split; [reflexivity |]. split; [| split; [exact Hjobs |]].
  - rewrite Hw', calls_update. now destruct h.
  - intros Hacc r' Hin Hsel. rewrite Hjobs, Hacc in Hin.
    apply in_write_rows in Hin as (r & _ & _ & ->); [| exact Hsel].
    destruct h; simpl; repeat split; congruence.
Qed.

(** *** The errors the pipeline raises *)

(** A download that does not succeed. *)
Lemma download_refused (h : handler) (env : Env) (id url : js_value) (w : World)
    (imageResponse : Response) :
  match h with
  | route_ts => RouteTs.call_isBase64DataUrl url = Normal false
  | part_000 => True
  end ->
  fetch env (Get url) = Normal imageResponse ->
  ok imageResponse = false ->
  process h env id url w
  = (Throw (Error (str "Failed to download input image: "
                     ++ statusText imageResponse)),
     record_call (Fetch (Get url)) w).
Proof.
  intros Hh Hf Hok.
  destruct h; simpl; unfold RouteTs.process, Part000.process,
    RouteTs.acquire_image, Part000.acquire_image, bind, await, throw, do_fetch;
    rewrite ?Hh, Hf, Hok; reflexivity.
Qed.

(** An answer of the image API that is not a success. *)
Lemma api_refused (h : handler) (env : Env) (id url : js_value) (w : World)
    (imageBlob : Blob) (openAIResponse : Response) (errorText : jsstring) :
  fst (acquire_image h env url w) = Normal imageBlob ->
  fetch env (variations_request h env imageBlob) = Normal openAIResponse ->
  ok openAIResponse = false ->
  text openAIResponse = Normal errorText ->
  fst (process h env id url w)
  = Throw (Error (str "OpenAI API error: "
                    ++ String_of_N (http_status openAIResponse)
                    ++ str " " ++ errorText)).
Proof.
  intros Ha Hf Hok Ht.
  destruct (acquire_image_run h env url w w) as [cs Hrun]. rewrite Ha in Hrun.
  destruct h; simpl in *; unfold RouteTs.process, Part000.process,
    RouteTs.submit, Part000.submit, bind, await, throw, do_fetch;
    rewrite Hrun, Hf, Hok, Ht; reflexivity.
Qed.

(** A success of the image API without [data[0].url]. *)
Lemma result_url_missing (h : handler) (env : Env) (id url : js_value) (w : World)
    (imageBlob : Blob) (openAIResponse : Response) (openAIResult : js_value) :
  fst (acquire_image h env url w) = Normal imageBlob ->
  fetch env (variations_request h env imageBlob) = Normal openAIResponse ->
  ok openAIResponse = true ->
  json openAIResponse = Normal openAIResult ->
  falsy (opt_get (opt_index0 (opt_get openAIResult (str "data"))) (str "url")) = true ->
  fst (process h env id url w)
  = Throw (Error (str "OpenAI API did not return a result image URL")).
Proof.
  intros Ha Hf Hok Hj Hu.
  destruct (acquire_image_run h env url w w) as [cs Hrun]. rewrite Ha in Hrun.
  destruct h; simpl in *; unfold RouteTs.process, Part000.process,
    RouteTs.submit, Part000.submit, bind, await, throw, do_fetch;
    rewrite Hrun, Hf, Hok; cbn [negb]; rewrite Hj; cbv zeta; rewrite Hu;
    reflexivity.
Qed.

(** C2, as stated, fails for the handler of part_000: the update that
    finalises failure names [status] and [error_message] only, so
    [processed_at] stays unset after a download that fails. *)
Lemma C2_part_000_leaves_processed_at :
  res_status (failure_response (Error (str "Failed to download input image: Not Found")))
  = 500
  /\ response_of part_000 env_no_image (notification payload1) world1
     = Normal (failure_response
                 (Error (str "Failed to download input image: Not Found")))
  /\ map status (jobs (deliver part_000 env_no_image (notification payload1) world1))
     = [str "failed"]
  /\ map error_message
       (jobs (deliver part_000 env_no_image (notification payload1) world1))
     = [Some (str "Failed to download input image: Not Found")]
  /\ map processed_at
       (jobs (deliver part_000 env_no_image (notification payload1) world1))
     = [None].
Proof. repeat split. Qed.

(** C2, amended: whatever the body of the inner [try] throws, once the
    payload has passed the guards and the row has loaded, is caught by its
    one [catch]: the answer is 500 with the text of the error as [details],
    and the last call is an update of the row that writes status ["failed"]
    and that text as [error_message]; when the store accepts it, every
    selected row holds them.  The handler of route.ts also writes
    [processed_at]; the one of part_000 leaves [processed_at] as it was. *)
Theorem C2_pipeline_errors_are_caught
    (h : handler) (env : Env) (body : js_value) (w : World) (r0 : job)
    (e : js_error) (w3 : World) :
  let id := payload_field body "id" in
  let url := payload_field body "input_image_url" in
  let now := Date_now env (clock_reads w3) in
  let p := failed_update h e now in
  let w' := deliver h env (notification body) w in
  truthy id = true ->
  truthy url = true ->
  payload_field body "status" = VStr (str "pending") ->
  select_error env id = None ->
  filter (selected env id) (jobs w) = [r0] ->
  process h env id url (claimed env id w) = (Throw e, w3) ->
  response_of h env (notification body) w = Normal (failure_response e)
  /\ res_status (failure_response e) = 500
  /\ lookup (str "details") (res_body (failure_response e)) = VStr (message e)
  /\ calls w' = calls w3 ++ [StoreUpdate id p]
  /\ set_status p = Some (str "failed")
  /\ set_error_message p = Some (message e)
  /\ (h = route_ts -> set_processed_at p = Some now)
  /\ (update_error env id p = None ->
      forall r', In r' (jobs w') -> selected env id r' = true ->
        status r' = str "failed"
        /\ error_message r' = Some (message e)
        /\ (h = route_ts -> processed_at r' = Some now))
  /\ (h = part_000 -> map processed_at (jobs w') = map processed_at (jobs w)).
Proof.
  intros id url now p w' Hid Hurl Hst He Hf Hthrow.
  destruct (caught_by_inner_catch h env body w r0 e w3 Hid Hurl Hst He Hf Hthrow)
    as (Hresp & Hcalls & Hjobs & Hrows).
  fold id now p w' in Hcalls, Hjobs, Hrows.
  split; [exact Hresp |]. split; [reflexivity |]. split; [reflexivity |].
  split; [exact Hcalls |]. split; [now destruct h |]. split; [now destruct h |].
  split; [now intros -> |]. split; [exact Hrows |].
  intros ->. rewrite Hjobs.
  assert (Hc : map processed_at (jobs (claimed env id w))
               = map processed_at (jobs w)).
  { destruct (jobs_claimed env id w) as [-> | ->]; [reflexivity |].
    unfold write_rows. rewrite map_map. apply map_ext. intros r.
    now destruct (selected env id r). }
  destruct (update_error env id p); [exact Hc |].
  rewrite <- Hc. unfold write_rows. rewrite map_map. apply map_ext.
  intros r. now destruct (selected env id r).
Qed.

Lemma C2_witness :
  let e := Error (str "Failed to download input image: Not Found") in
  let p := failed_update route_ts e (time_stamp 0) in
  let w' := deliver route_ts env_no_image (notification payload1) world1 in
  response_of route_ts env_no_image (notification payload1) world1
  = Normal (failure_response e)
  /\ res_status (failure_response e) = 500
  /\ lookup (str "details") (res_body (failure_response e)) = VStr (message e)
  /\ calls w'
     = calls (with_calls [Fetch (Get (VStr (str "https://example.com/cat.png")))]
                (claimed env_no_image (VStr (str "job-1")) world1))
       ++ [StoreUpdate (VStr (str "job-1")) p]
  /\ set_status p = Some (str "failed")
  /\ set_error_message p = Some (message e)
  /\ (route_ts = route_ts -> set_processed_at p = Some (time_stamp 0))
  /\ (update_error env_no_image (VStr (str "job-1")) p = None ->
      forall r', In r' (jobs w') ->
        selected env_no_image (VStr (str "job-1")) r' = true ->
        status r' = str "failed"
        /\ error_message r' = Some (message e)
        /\ (route_ts = route_ts -> processed_at r' = Some (time_stamp 0)))
  /\ (route_ts = part_000 ->
      map processed_at (jobs w') = map processed_at (jobs world1)).
Proof.
  apply (C2_pipeline_errors_are_caught route_ts env_no_image payload1 world1 job1
           (Error (str "Failed to download input image: Not Found"))
           (with_calls [Fetch (Get (VStr (str "https://example.com/cat.png")))]
              (claimed env_no_image (VStr (str "job-1")) world1)));
    reflexivity.
Defined.

(** *** The completing update is refused *)

Lemma process_completion_refused (h : handler) (env : Env) (id url : js_value)
    (w w0 : World) (imageBlob : Blob) (openAIResponse : Response)
    (openAIResult : js_value) (updateError : PostgrestError) :
  let resultImageUrl :=
    opt_get (opt_index0 (opt_get openAIResult (str "data"))) (str "url") in
  let p := complete_update h resultImageUrl (Date_now env (clock_reads w)) in
  fst (acquire_image h env url w0) = Normal imageBlob ->
  fetch env (variations_request h env imageBlob) = Normal openAIResponse ->
  ok openAIResponse = true ->
  json openAIResponse = Normal openAIResult ->
  truthy resultImageUrl = true ->
  update_error env id p = Some updateError ->
  exists cs,
    process h env id url w
    = (Throw (Error (str "Failed to update job in Supabase: "
                       ++ pg_message updateError)),
       clock_read h (with_calls (cs ++ [StoreUpdate id p]) w)).
Proof.
  intros u p Ha Hf Hok Hj Hu Hup.
  destruct (acquire_image_run h env url w w0) as [cs Hrun].
  rewrite Ha in Hrun.
  exists (cs ++ [Fetch (variations_request h env imageBlob)]).
  destruct h; simpl in *;
    unfold RouteTs.process, Part000.process, RouteTs.submit, Part000.submit,
      bind, await, throw, ret, do_fetch, new_Date_toISOString, supabase_update;
    rewrite Hrun, Hf, Hok; cbn [negb]; rewrite Hj; fold u;
    unfold falsy; rewrite Hu; cbn [negb];
    cbn [jobs calls clock_reads with_calls record_call]; fold p;
    unfold p in Hup |- *; rewrite Hup; cbn [upd_error];
    unfold with_calls, record_call; simpl; now rewrite <- !app_assoc.
Qed.

(** C6: when the update that finalises success comes back with an error,
    the handler does not answer with success.  The error is thrown into the
    [catch] of the pipeline: the answer is 500, never the 200 response that
    carries [result_image_url], and the call that follows the refused update
    is the update that marks the job ["failed"] with the text of that error;
    when the store accepts this one, every selected row is ["failed"]. *)
Theorem C6_refused_completion_is_a_failure
    (h : handler) (env : Env) (body : js_value) (w : World) (r0 : job)
    (imageBlob : Blob) (openAIResponse : Response) (openAIResult : js_value)
    (updateError : PostgrestError) :
  let id := payload_field body "id" in
  let url := payload_field body "input_image_url" in
  let resultImageUrl :=
    opt_get (opt_index0 (opt_get openAIResult (str "data"))) (str "url") in
  let completing := complete_update h resultImageUrl (Date_now env (clock_reads w)) in
  let e := Error (str "Failed to update job in Supabase: "
                    ++ pg_message updateError) in
  let failing :=
    failed_update h e (Date_now env (clock_reads (clock_read h w))) in
  let w' := deliver h env (notification body) w in
  truthy id = true ->
  truthy url = true ->
  payload_field body "status" = VStr (str "pending") ->
  select_error env id = None ->
  filter (selected env id) (jobs w) = [r0] ->
  fst (acquire_image h env url w) = Normal imageBlob ->
  fetch env (variations_request h env imageBlob) = Normal openAIResponse ->
  ok openAIResponse = true ->
  json openAIResponse = Normal openAIResult ->
  truthy resultImageUrl = true ->
  update_error env id completing = Some updateError ->
  response_of h env (notification body) w = Normal (failure_response e)
  /\ res_status (failure_response e) = 500
  /\ (forall u, response_of h env (notification body) w
                <> Normal (success_response u))
  /\ (exists cs,
        calls w'
        = calls w ++ cs ++ [StoreUpdate id completing; StoreUpdate id failing])
  /\ set_status failing = Some (str "failed")
  /\ set_error_message failing = Some (message e)
  /\ (update_error env id failing = None ->
      forall r', In r' (jobs w') -> selected env id r' = true ->
        status r' = str "failed" /\ error_message r' = Some (message e)).
Proof.
  intros id url u completing e failing w' Hid Hurl Hst He Hf Ha Hfe Hok Hj Hu Hup.
  destruct (process_completion_refused h env id url (claimed env id w) w imageBlob
              openAIResponse openAIResult updateError Ha Hfe Hok Hj Hu)
    as (cs & Hrun).
  { rewrite clock_claimed. exact Hup. }
  rewrite clock_claimed in Hrun. fold u completing e in Hrun.
  destruct (caught_by_inner_catch h env body w r0 e _ Hid Hurl Hst He Hf Hrun)
    as (Hresp & Hcalls & _ & Hrows).
  assert (Hclock : clock_reads
                     (clock_read h
                        (with_calls (cs ++ [StoreUpdate id completing])
                           (claimed env id w)))
                   = clock_reads (clock_read h w))
    by (destruct h; simpl; now rewrite ?clock_claimed).
  rewrite Hclock in Hcalls, Hrows. fold failing in Hcalls, Hrows. fold w' in Hcalls, Hrows.
  split; [exact Hresp |]. split; [reflexivity |]. split.
  { intros u'. rewrite Hresp. discriminate. }
  split.
  { exists ([StoreSelect id; StoreUpdate id processing_update] ++ cs).
    rewrite Hcalls. destruct h; simpl; rewrite calls_claimed;
      now rewrite <- !app_assoc. }
  split; [now destruct h |]. split; [now destruct h |].
  intros Hacc r' Hin Hsel. destruct (Hrows Hacc r' Hin Hsel) as (? & ? & _).
  now split.
Qed.

Lemma C6_witness :
  let id := VStr (str "job-1") in
  let u := VStr (str "https://cdn.example.com/out.png") in
  let completing := complete_update route_ts u (time_stamp 0) in
  let e := Error (str "Failed to update job in Supabase: permission denied") in
  let failing := failed_update route_ts e (time_stamp 1) in
  let w' := deliver route_ts env_complete_refused (notification payload1) world1 in
  response_of route_ts env_complete_refused (notification payload1) world1
  = Normal (failure_response e)
  /\ res_status (failure_response e) = 500
  /\ (forall u', response_of route_ts env_complete_refused (notification payload1) world1
                 <> Normal (success_response u'))
  /\ (exists cs,
        calls w'
        = calls world1 ++ cs ++ [StoreUpdate id completing; StoreUpdate id failing])
  /\ set_status failing = Some (str "failed")
  /\ set_error_message failing = Some (message e)
  /\ (update_error env_complete_refused id failing = None ->
      forall r', In r' (jobs w') -> selected env_complete_refused id r' = true ->
        status r' = str "failed" /\ error_message r' = Some (message e)).
Proof.
  apply (C6_refused_completion_is_a_failure route_ts env_complete_refused payload1
           world1 job1 png api_reply
           (VObj [ (str "created", VNum 1700000000%float);
                   (str "data",
                    VArr [ VObj [ (str "url",
                                   VStr (str "https://cdn.example.com/out.png")) ] ]) ])
           {| pg_message := str "permission denied" |});
    reflexivity.
Defined.

(** ** What a delivery can do to the table *)

Lemma status_is_pending (v : js_value) :
  strict_neq_str v (str "pending") = false -> v = VStr (str "pending").
Proof.
  destruct v; simpl; try discriminate. intros H.
  apply negb_false_iff, jsstring_eqb_eq in H. now subst.
Qed.

(** The row does not load: the answer is 500 and only the read was made. *)
Lemma POST_load_fails (h : handler) (env : Env) (body : js_value) (w : World) :
  fails_validation body = false ->
  payload_field body "status" = VStr (str "pending") ->
  (forall r0, select_error env (payload_field body "id") = None ->
              filter (selected env (payload_field body "id")) (jobs w) <> [r0]) ->
  exists response,
    POST h env (notification body) w
    = (Normal response, record_call (StoreSelect (payload_field body "id")) w)
    /\ res_status response = 500.
Proof.
  intros Hv Hs Hno. unfold fails_validation, payload_field in *.
  destruct h; unfold POST, RouteTs.POST, Part000.POST, try_catch, await,
    notification, req_json; unfold bind at 1; cbv zeta; rewrite Hv, Hs;
    change (strict_neq_str (VStr (str "pending")) (str "pending")) with false;
    cbv iota; unfold bind at 1; unfold supabase_select_single;
    (destruct (select_error env _) as [err |] eqn:He;
       [ simpl; eauto |]);
    (destruct (filter _ (jobs w)) as [| r0 [| r1 rest]] eqn:Hf;
       [ simpl; eauto | exfalso; now apply (Hno r0) | simpl; eauto ]).
Qed.

Lemma process_returns (h : handler) (env : Env) (id url : js_value)
    (w w3 : World) (response : NextResponse) :
  process h env id url w = (Normal response, w3) ->
  exists u now,
    truthy u = true
    /\ response = success_response (JSON_value u)
    /\ jobs w3 = write_rows env id (complete_update h u now) (jobs w).
Proof.
  intros Hp.
  destruct (acquire_image_run h env url w w) as [cs Hrun].
  assert (Hproc : process h env id url w
                  = bind (acquire_image h env url) (submit h env id) w)
    by (destruct h; reflexivity).
  rewrite Hproc in Hp. unfold bind in Hp. rewrite Hrun in Hp.
  destruct (fst (acquire_image h env url w)) as [imageBlob | e0]; [| discriminate].
  destruct (submit_cases h env id imageBlob (with_calls cs w))
    as [[e1 H1] | (u & Hu & H1)]; cbv zeta in H1; rewrite H1 in Hp;
    [discriminate |].
  destruct (update_error env id _); [discriminate |].
  injection Hp as <- <-. exists u, (Date_now env (clock_reads (with_calls cs w))).
  auto.
Qed.

Lemma terminal_complete (h : handler) (u : js_value) (now : jsstring) :
  terminal_update (complete_update h u now).
Proof. left. destruct h; simpl; repeat split; discriminate. Qed.

Lemma terminal_failed (h : handler) (e : js_error) (now : jsstring) :
  terminal_update (failed_update h e now).
Proof. right. destruct h; simpl; repeat split; discriminate. Qed.

Lemma terminal_sets_status (p : patch) :
  terminal_update p -> exists s, set_status p = Some s.
Proof. intros [(H & _) | (H & _)]; eauto. Qed.

(** A delivery leaves the table as it was, or has written ["processing"] to
    the selected rows, or has written one terminal update to them. *)
Lemma POST_effect (h : handler) (env : Env) (req : NextRequest) (w : World) :
  exists id,
    jobs (deliver h env req w) = jobs w
    \/ jobs (deliver h env req w) = write_rows env id processing_update (jobs w)
    \/ exists p, terminal_update p
                 /\ jobs (deliver h env req w) = write_rows env id p (jobs w).
Proof.
  destruct (says_pending req) eqn:Hsp.
  2: { exists VUndefined. left. now rewrite deliver_not_pending. }
  destruct req as [[body | e]]; [| discriminate].
  change {| req_json := Normal body |} with (notification body) in *.
  unfold says_pending, payload_of in Hsp. simpl in Hsp.
  apply negb_true_iff, status_is_pending in Hsp.
  set (id := payload_field body "id"). exists id.
  destruct (fails_validation body) eqn:Hv.
  { left. unfold deliver. now rewrite POST_invalid_payload. }
  destruct (select_error env id) as [err |] eqn:He.
  { left. unfold deliver.
    destruct (POST_load_fails h env body w Hv Hsp) as (resp & -> & _); [| reflexivity].
    fold id. intros r0 H. congruence. }
  destruct (filter (selected env id) (jobs w)) as [| r0 [| r1 rest]] eqn:Hf.
  { left. unfold deliver.
    destruct (POST_load_fails h env body w Hv Hsp) as (resp & -> & _); [| reflexivity].
    fold id. intros r0 _. rewrite Hf. discriminate. }
  2: { left. unfold deliver.
    destruct (POST_load_fails h env body w Hv Hsp) as (resp & -> & _); [| reflexivity].
       fold id. intros r2 _. rewrite Hf. discriminate. }
  assert (Hp := POST_pending h env body w r0 Hv Hsp He Hf). fold id in Hp.
  unfold deliver. rewrite Hp.
  destruct (process h env id (payload_field body "input_image_url") (claimed env id w))
    as [[response | e] w3] eqn:Hrun.
  - right; right. apply process_returns in Hrun as (u & now & _ & _ & Hj).
    exists (complete_update h u now). split; [apply terminal_complete |].
    simpl. rewrite Hj.
    destruct (terminal_sets_status _ (terminal_complete h u now)) as [s Hs].
    now apply write_rows_claimed with s.
  - rewrite on_process_error_run. simpl snd. rewrite jobs_update.
    apply process_throws_keep_jobs in Hrun as [Hj _].
    assert (Hj' : jobs (clock_read h w3) = jobs (claimed env id w))
      by (now destruct h).
    rewrite Hj'.
    destruct (update_error env id _).
    + destruct (jobs_claimed env id w) as [-> | ->]; auto.
    + right; right. eexists. split; [apply terminal_failed |].
      destruct (terminal_sets_status _
                  (terminal_failed h e (Date_now env (clock_reads w3)))) as [s Hs].
      now apply write_rows_claimed with s.
Qed.

(** ** One outcome per terminal row *)

(** C8, as stated, fails: the terminal updates never clear the column of the
    other outcome, and the guard reads the payload.  The notification of a
    fresh pending row, delivered a second time after a run that succeeded,
    is processed again; when the download then fails the row ends
    ["failed"] with both [result_image_url] and [error_message] set. *)
Lemma C8_both_columns_after_redelivery :
  let w' :=
    deliver_all route_ts
      [ (env_ok, notification payload1); (env_no_image, notification payload1) ]
      world1 in
  map status (jobs world1) = [str "pending"]
  /\ map result_image_url (jobs world1) = [None]
  /\ map error_message (jobs world1) = [None]
  /\ map status (jobs w') = [str "failed"]
  /\ map result_image_url (jobs w')
     = [Some (VStr (str "https://cdn.example.com/out.png"))]
  /\ map error_message (jobs w')
     = [Some (str "Failed to download input image: Not Found")].
Proof. repeat split. Qed.

(** ** Data URLs *)

Lemma span_app (p : code_unit -> bool) (s a b : jsstring) :
  span p s = (a, b) -> s = a ++ b /\ forallb p a = true.
Proof.
  revert a b; induction s as [| c s IH]; intros a b H; simpl in H.
  - injection H as <- <-. now split.
  - destruct (p c) eqn:Hc.
    + destruct (span p s) as [a' b'] eqn:Hs. injection H as <- <-.
      destruct (IH a' b' eq_refl) as [-> Ha]. simpl. now rewrite Hc, Ha.
    + injection H as <- <-. now split.
Qed.

Lemma span_stop (p : code_unit -> bool) (a b : jsstring) (c : code_unit) :
  forallb p a = true -> p c = false -> span p (a ++ c :: b) = (a, c :: b).
Proof.
  intros Ha Hc. induction a as [| x a IH]; simpl in *.
  - now rewrite Hc.
  - apply andb_true_iff in Ha as [Hx Ha]. now rewrite Hx, IH.
Qed.

(** The matcher accepts exactly the well-formed data URLs, and its groups
    are the media type and the payload. *)
Lemma match_data_url_Some (s : jsstring) (ms : list jsstring) :
  match_data_url s = Some ms ->
  exists mime payload,
    ms = [s; mime; payload]
    /\ s = str "data:" ++ mime ++ str ";base64," ++ payload
    /\ mime <> [] /\ forallb is_mime_char mime = true
    /\ payload <> [] /\ forallb dot payload = true.
Proof.
  unfold match_data_url. intros H.
  destruct (strip_prefix (str "data:") s) as [r |] eqn:Hd; [| discriminate].
  apply strip_prefix_Some in Hd.
  destruct (span is_mime_char r) as [mime r'] eqn:Hsp.
  apply span_app in Hsp as [-> Hm].
  destruct mime as [| m mime]; [discriminate |].
  destruct (strip_prefix (str ";base64,") r') as [[| c payload] |] eqn:Hb;
    try discriminate.
  apply strip_prefix_Some in Hb.
  destruct (forallb dot (c :: payload)) eqn:Hdot; [| discriminate].
  injection H as <-. exists (m :: mime), (c :: payload).
  subst s r'. repeat split; try discriminate; assumption.
Qed.

Lemma match_data_url_accepts (mime payload : jsstring) :
  mime <> [] -> forallb is_mime_char mime = true ->
  payload <> [] -> forallb dot payload = true ->
  match_data_url (str "data:" ++ mime ++ str ";base64," ++ payload)
  = Some [str "data:" ++ mime ++ str ";base64," ++ payload; mime; payload].
Proof.
  intros Hm Hmc Hp Hd. unfold match_data_url.
  rewrite strip_prefix_app.
  change (str ";base64," ++ payload) with (59 :: (str "base64," ++ payload)).
  rewrite span_stop by (assumption || reflexivity).
  destruct mime as [| m mime]; [contradiction |].
  change (59 :: (str "base64," ++ payload)) with (str ";base64," ++ payload).
  rewrite strip_prefix_app.
  destruct payload as [| c payload]; [contradiction |].
  now rewrite Hd.
Qed.

Lemma match_data_url_None (s : jsstring) :
  match_data_url s = None <-> ~ well_formed_data_url s.
Proof.
  split.
  - intros H (mime & payload & -> & Hm & Hmc & Hp & Hd).
    rewrite match_data_url_accepts in H by assumption. discriminate.
  - intros H. destruct (match_data_url s) as [ms |] eqn:Hms; [| reflexivity].
    exfalso. apply H.
    apply match_data_url_Some in Hms as (mime & payload & _ & Hs & Hrest).
    now exists mime, payload.
Qed.

(** The decoder throws its format error exactly when the matcher finds no
    match; what [atob] throws is another error. *)
Lemma format_error_iff_no_match (s : jsstring) :
  base64DataUrlToBlob s = Throw (Error (str "Invalid data URL format"))
  <-> match_data_url s = None.
Proof.
  unfold base64DataUrlToBlob. split.
  - destruct (match_data_url s) as [ms |] eqn:Hms; [| reflexivity].
    apply match_data_url_Some in Hms as (mime & payload & -> & _).
    simpl. unfold atob.
    destruct (base64_indices _); [| discriminate].
    destruct (_ =? 1); discriminate.
  - now intros ->.
Qed.

Lemma route_inline_process (env : Env) (id : js_value) (s : jsstring) (w : World) :
  isBase64DataUrl s = true ->
  RouteTs.process env id (VStr s) w
  = match base64DataUrlToBlob s with
    | Throw e => (Throw e, w)
    | Normal imageBlob => RouteTs.submit env id imageBlob w
    end.
Proof.
  intros Hs. unfold RouteTs.process, RouteTs.acquire_image, bind, await. simpl.
  rewrite Hs. now destruct (base64DataUrlToBlob s).
Qed.

Lemma no_get_filter (cs0 cs : list call) :
  forallb (fun c => negb (is_http_get c)) cs = true ->
  filter is_http_get (cs0 ++ cs) = filter is_http_get cs0.
Proof.
  intros H. rewrite filter_app.
  assert (Hnil : filter is_http_get cs = []).
  { induction cs as [| c cs IH]; simpl in *; [reflexivity |].
    apply andb_true_iff in H as [Hc Hcs]. apply negb_true_iff in Hc.
    rewrite Hc. now apply IH. }
  rewrite Hnil. apply app_nil_r.
Qed.

(** The calls of a delivery whose [input_image_url] starts with [data:]. *)
Lemma inline_delivery_calls (env : Env) (body : js_value) (w : World) (s : jsstring) :
  payload_field body "input_image_url" = VStr s ->
  isBase64DataUrl s = true ->
  exists cs,
    calls (deliver route_ts env (notification body) w) = calls w ++ cs
    /\ forallb (fun c => negb (is_http_get c)) cs = true.
Proof.
  intros Hurl Hs.
  assert (Hsame : forall w0 : World, calls w0 = calls w0 ++ [])
    by (intros; now rewrite app_nil_r).
  destruct (says_pending (notification body)) eqn:Hsp.
  2: { exists []. rewrite deliver_not_pending by exact Hsp. auto. }
  unfold says_pending, payload_of in Hsp. simpl in Hsp.
  apply negb_true_iff, status_is_pending in Hsp.
  destruct (fails_validation body) eqn:Hv.
  { exists []. unfold deliver. rewrite POST_invalid_payload by exact Hv. auto. }
  set (id := payload_field body "id").
  assert (Hload : (forall r0, select_error env id = None ->
                              filter (selected env id) (jobs w) <> [r0])
                  -> exists cs,
                       calls (deliver route_ts env (notification body) w)
                       = calls w ++ cs
                       /\ forallb (fun c => negb (is_http_get c)) cs = true).
  { intros Hno. unfold deliver.
    destruct (POST_load_fails route_ts env body w Hv Hsp Hno) as (resp & -> & _).
    now exists [StoreSelect id]. }
  destruct (select_error env id) as [err |] eqn:He.
  { apply Hload. intros r0 H. congruence. }
  destruct (filter (selected env id) (jobs w)) as [| r0 [| r1 rest]] eqn:Hf.
  { apply Hload. discriminate. }
  2: { apply Hload. discriminate. }
  clear Hload.
  assert (Hp := POST_pending route_ts env body w r0 Hv Hsp He Hf).
  fold id in Hp. rewrite Hurl in Hp. simpl process in Hp.
  rewrite route_inline_process in Hp by exact Hs.
  unfold deliver. rewrite Hp. clear Hp.
  destruct (base64DataUrlToBlob s) as [imageBlob | e].
  - destruct (submit_cases route_ts env id imageBlob (claimed env id w))
      as [[e1 H1] | (u & _ & H1)]; cbv zeta in H1; simpl submit in H1; rewrite H1.
    + rewrite on_process_error_run. simpl snd. rewrite calls_update. simpl.
      rewrite calls_claimed. rewrite <- !app_assoc. eexists. split; reflexivity.
    + destruct (update_error env id _).
      * rewrite on_process_error_run. simpl snd. rewrite calls_update. simpl.
        rewrite calls_claimed. rewrite <- !app_assoc. eexists. split; reflexivity.
      * simpl. rewrite calls_claimed. rewrite <- !app_assoc.
        eexists. split; reflexivity.
  - rewrite on_process_error_run. simpl snd. rewrite calls_update. simpl.
    rewrite calls_claimed. rewrite <- !app_assoc. eexists. split; reflexivity.
Qed.

(** C10, as stated, fails in its "exactly when": a string of the shape
    [data:<mime>;base64,<payload>] with a media type made of letters and [/]
    and a non-empty payload is still refused with the format error when the
    payload holds a line feed, although [atob] would decode that payload (it
    skips white space). *)
Lemma C10_line_feed_in_payload :
  let payload := str "QUJD" ++ [10] ++ str "REVG" in
  let s := str "data:" ++ str "image/png" ++ str ";base64," ++ payload in
  isBase64DataUrl s = true
  /\ forallb is_mime_char (str "image/png") = true
  /\ payload <> []
  /\ base64DataUrlToBlob s = Throw (Error (str "Invalid data URL format"))
  /\ atob payload = Normal (str "ABCDEF").
Proof. repeat split. discriminate. Qed.

(** C10, amended: for an [input_image_url] that starts with [data:] the
    handler of route.ts issues no HTTP GET, and the decoder throws
    ["Invalid data URL format"] exactly when the string is not
    [data:<mime>;base64,<payload>] with a non-empty media type made only of
    letters, [-], [+] and [/] and a non-empty payload that holds no line
    terminator (LF, CR, U+2028, U+2029); what the decoder throws is caught
    and, once the guards are passed and the row has loaded, written to the
    row as a failure and answered with 500. *)
Theorem C10_data_urls_are_decoded_not_fetched
    (env : Env) (body : js_value) (w : World) (s : jsstring) :
  let id := payload_field body "id" in
  let w' := deliver route_ts env (notification body) w in
  payload_field body "input_image_url" = VStr s ->
  isBase64DataUrl s = true ->
  filter is_http_get (calls w') = filter is_http_get (calls w)
  /\ (base64DataUrlToBlob s = Throw (Error (str "Invalid data URL format"))
      <-> ~ well_formed_data_url s)
  /\ (forall e r0,
        base64DataUrlToBlob s = Throw e ->
        truthy id = true ->
        payload_field body "status" = VStr (str "pending") ->
        select_error env id = None ->
        filter (selected env id) (jobs w) = [r0] ->
        response_of route_ts env (notification body) w
        = Normal (failure_response e)
        /\ calls w'
           = calls w
             ++ [ StoreSelect id; StoreUpdate id processing_update;
                  StoreUpdate id
                    (failed_update route_ts e (Date_now env (clock_reads w))) ]).
Proof.
  intros id w' Hurl Hs. split; [| split].
  - destruct (inline_delivery_calls env body w s Hurl Hs) as (cs & Hc & Hno).
    unfold w'. rewrite Hc. now apply no_get_filter.
  - rewrite format_error_iff_no_match. apply match_data_url_None.
  - intros e r0 Hthrow Hid Hst He Hf.
    assert (Hrun : process route_ts env id (payload_field body "input_image_url")
                     (claimed env id w)
                   = (Throw e, claimed env id w)).
    { rewrite Hurl. simpl process. rewrite route_inline_process by exact Hs.
      now rewrite Hthrow. }
    assert (Hurl' : truthy (payload_field body "input_image_url") = true).
    { rewrite Hurl. destruct s; [discriminate | reflexivity]. }
    destruct (caught_by_inner_catch route_ts env body w r0 e _ Hid Hurl' Hst He Hf Hrun)
      as (Hresp & Hcalls & _).
    split; [exact Hresp |]. fold w' id in Hcalls. rewrite Hcalls.
    rewrite calls_claimed, clock_claimed. now rewrite <- app_assoc.
Qed.

Lemma C10_witness :
  let body :=
    payload_with [ (str "id", VStr (str "job-1"));
                   (str "input_image_url", VStr (str "data:image/png;base64,"));
                   (str "status", VStr (str "pending")) ] in
  let s := str "data:image/png;base64," in
  let id := payload_field body "id" in
  let w' := deliver route_ts env_ok (notification body) world1 in
  filter is_http_get (calls w') = filter is_http_get (calls world1)
  /\ (base64DataUrlToBlob s = Throw (Error (str "Invalid data URL format"))
      <-> ~ well_formed_data_url s)
  /\ (forall e r0,
        base64DataUrlToBlob s = Throw e ->
        truthy id = true ->
        payload_field body "status" = VStr (str "pending") ->
        select_error env_ok id = None ->
        filter (selected env_ok id) (jobs world1) = [r0] ->
        response_of route_ts env_ok (notification body) world1
        = Normal (failure_response e)
        /\ calls w'
           = calls world1
             ++ [ StoreSelect id; StoreUpdate id processing_update;
                  StoreUpdate id
                    (failed_update route_ts e (Date_now env_ok (clock_reads world1))) ]).
Proof.
  apply (C10_data_urls_are_decoded_not_fetched env_ok
           (payload_with [ (str "id", VStr (str "job-1"));
                           (str "input_image_url", VStr (str "data:image/png;base64,"));
                           (str "status", VStr (str "pending")) ])
           world1 (str "data:image/png;base64,"));
    reflexivity.
Defined.

(** ** The round trip through a data URL *)

Lemma list_ind3 {A : Type} (P : list A -> Prop) :
  P [] -> (forall a, P [a]) -> (forall a b, P [a; b]) ->
  (forall a b c l, P l -> P (a :: b :: c :: l)) ->
  forall l, P l.
Proof.
  intros H0 H1 H2 H3 l.
  assert (H : P l /\ (forall a, P (a :: l)) /\ (forall a b, P (a :: b :: l))).
  { induction l as [| x l (IH0 & IH1 & IH2)].
    - auto.
    - repeat split; auto. }
  apply H.
Qed.

Lemma base64_index_char (i : N) : i < 64 -> base64_index (base64_char i) = Some i.
Proof.
  intros Hi. unfold base64_char, base64_index.
  destruct (N.ltb_spec i 26).
  { replace ((65 <=? i + 65) && (i + 65 <=? 90)) with true
      by (symmetry; apply andb_true_iff; split; apply N.leb_le; lia).
    f_equal; lia. }
  destruct (N.ltb_spec i 52).
  { replace ((65 <=? i + 71) && (i + 71 <=? 90)) with false
      by (symmetry; apply andb_false_iff; right; apply N.leb_gt; lia).
    replace ((97 <=? i + 71) && (i + 71 <=? 122)) with true
      by (symmetry; apply andb_true_iff; split; apply N.leb_le; lia).
    f_equal; lia. }
  destruct (N.ltb_spec i 62).
  { replace ((65 <=? i - 4) && (i - 4 <=? 90)) with false
      by (symmetry; apply andb_false_iff; left; apply N.leb_gt; lia).
    replace ((97 <=? i - 4) && (i - 4 <=? 122)) with false
      by (symmetry; apply andb_false_iff; left; apply N.leb_gt; lia).
    replace ((48 <=? i - 4) && (i - 4 <=? 57)) with true
      by (symmetry; apply andb_true_iff; split; apply N.leb_le; lia).
    f_equal; lia. }
  destruct (N.eqb_spec i 62) as [-> | Hne]; [reflexivity |].
  assert (i = 63) as -> by lia. reflexivity.
Qed.

(** A character of the alphabet is neither white space, nor [=], nor a line
    terminator. *)
Lemma alphabet_char (c : code_unit) (i : N) :
  base64_index c = Some i ->
  is_ascii_whitespace c = false /\ c <> 61 /\ dot c = true.
Proof.
  unfold base64_index, is_ascii_whitespace, dot, is_line_terminator. intros H.
  destruct (N.leb_spec 65 c), (N.leb_spec c 90), (N.leb_spec 97 c),
    (N.leb_spec c 122), (N.leb_spec 48 c), (N.leb_spec c 57),
    (N.eqb_spec c 43), (N.eqb_spec c 47); simpl in H; try discriminate;
    (repeat split; [| lia |]);
    repeat match goal with
      | |- context [?x =? ?y] => destruct (N.eqb_spec x y); try lia
      end; reflexivity.
Qed.

Lemma sextets_bounded (bytes : list N) :
  Forall (fun b => b < 256) bytes -> Forall (fun s => s < 64) (sextets_of bytes).
Proof.
  induction bytes as [| a | a b | a b c rest IH] using list_ind3; intros H.
  - constructor.
  - inversion_clear H. simpl. repeat constructor; lia.
  - inversion_clear H as [| ? ? Ha H']. inversion_clear H'.
    simpl. repeat constructor; lia.
  - inversion_clear H as [| ? ? Ha H']. inversion_clear H' as [| ? ? Hb H''].
    inversion_clear H'' as [| ? ? Hc Hrest]. simpl.
    repeat (constructor; [lia |]). now apply IH.
Qed.

Lemma decode_sextets_of (bytes : list N) :
  Forall (fun b => b < 256) bytes -> decode_sextets (sextets_of bytes) = bytes.
Proof.
  induction bytes as [| a | a b | a b c rest IH] using list_ind3; intros H.
  - reflexivity.
  - inversion_clear H. simpl. f_equal. lia.
  - inversion_clear H as [| ? ? Ha H']. inversion_clear H'.
    simpl. f_equal; [lia |]. f_equal. lia.
  - inversion_clear H as [| ? ? Ha H']. inversion_clear H' as [| ? ? Hb H''].
    inversion_clear H'' as [| ? ? Hc Hrest].
    change (sextets_of (a :: b :: c :: rest))
      with (let n := a * 65536 + b * 256 + c in
            (n / 262144) :: ((n / 4096) mod 64) :: ((n / 64) mod 64) :: (n mod 64)
            :: sextets_of rest).
    cbv zeta.
    change (decode_sextets (?s1 :: ?s2 :: ?s3 :: ?s4 :: sextets_of rest))
      with (let n := s1 * 262144 + s2 * 4096 + s3 * 64 + s4 in
            (n / 65536) :: ((n / 256) mod 256) :: (n mod 256)
            :: decode_sextets (sextets_of rest)).
    cbv zeta. rewrite IH by assumption.
    f_equal; [lia |]. f_equal; [lia |]. f_equal. lia.
Qed.

Lemma base64_indices_chars (sx : list N) :
  Forall (fun s => s < 64) sx -> base64_indices (map base64_char sx) = Some sx.
Proof.
  induction 1 as [| s sx Hs _ IH]; simpl; [reflexivity |].
  now rewrite base64_index_char, IH.
Qed.

Lemma padding_cases (bytes : list N) :
  padding_of bytes = [] \/ padding_of bytes = [61] \/ padding_of bytes = [61; 61].
Proof.
  induction bytes as [| a | a b | a b c rest IH] using list_ind3; simpl; auto.
Qed.

Lemma encoded_length (bytes : list N) :
  exists k, (length (sextets_of bytes) + length (padding_of bytes) = 4 * k)%nat
            /\ (length (padding_of bytes) <= 2)%nat
            /\ (bytes <> [] -> (0 < length (sextets_of bytes))%nat).
Proof.
  induction bytes as [| a | a b | a b c rest (k & IH & IH2 & _)] using list_ind3.
  - exists 0%nat. repeat split; auto. contradiction.
  - exists 1%nat. simpl. repeat split; auto.
  - exists 1%nat. simpl. repeat split; auto.
  - exists (S k). simpl in *. repeat split; lia.
Qed.

Lemma drop_final_equals_snoc (s : jsstring) :
  drop_final_equals (s ++ [61]) = s.
Proof.
  unfold drop_final_equals. rewrite rev_app_distr. simpl. apply rev_involutive.
Qed.

Lemma drop_final_equals_alphabet (sx : list N) :
  Forall (fun s => s < 64) sx ->
  drop_final_equals (map base64_char sx) = map base64_char sx.
Proof.
  intros H. unfold drop_final_equals.
  destruct (rev (map base64_char sx)) as [| c r] eqn:Hr; [reflexivity |].
  assert (Hin : In c (map base64_char sx)).
  { apply in_rev. rewrite Hr. now left. }
  apply in_map_iff in Hin as (s & <- & Hs).
  rewrite Forall_forall in H.
  destruct (alphabet_char _ _ (base64_index_char s (H s Hs))) as (_ & Hne & _).
  apply N.eqb_neq in Hne. now rewrite Hne.
Qed.

Lemma remove_padding_encoded (bytes : list N) :
  Forall (fun b => b < 256) bytes ->
  remove_padding (base64_encode bytes) = map base64_char (sextets_of bytes).
Proof.
  intros Hb. apply sextets_bounded in Hb.
  unfold remove_padding, base64_encode.
  destruct (encoded_length bytes) as (k & Hk & _).
  rewrite length_app, length_map, Hk.
  replace (N.of_nat (4 * k) mod 4 =? 0) with true by (symmetry; apply N.eqb_eq; lia).
  destruct (padding_cases bytes) as [-> | [-> | ->]].
  - rewrite app_nil_r. now rewrite !drop_final_equals_alphabet.
  - rewrite drop_final_equals_snoc. now apply drop_final_equals_alphabet.
  - change [61; 61] with ([61] ++ [61]). rewrite app_assoc.
    now rewrite !drop_final_equals_snoc.
Qed.

Lemma encoded_has_no_white_space (bytes : list N) :
  Forall (fun b => b < 256) bytes ->
  filter (fun c => negb (is_ascii_whitespace c)) (base64_encode bytes)
  = base64_encode bytes.
Proof.
  intros Hb. apply sextets_bounded in Hb.
  unfold base64_encode. rewrite filter_app. f_equal.
  - induction Hb as [| s sx Hs _ IH]; simpl; [reflexivity |].
    destruct (alphabet_char _ _ (base64_index_char s Hs)) as (-> & _).
    simpl. now rewrite IH.
  - now destruct (padding_cases bytes) as [-> | [-> | ->]].
Qed.

Lemma encoded_has_no_line_terminator (bytes : list N) :
  Forall (fun b => b < 256) bytes -> forallb dot (base64_encode bytes) = true.
Proof.
  intros Hb. apply sextets_bounded in Hb.
  unfold base64_encode. rewrite forallb_app. apply andb_true_iff. split.
  - induction Hb as [| s sx Hs _ IH]; simpl; [reflexivity |].
    destruct (alphabet_char _ _ (base64_index_char s Hs)) as (_ & _ & ->).
    exact IH.
  - now destruct (padding_cases bytes) as [-> | [-> | ->]].
Qed.

Lemma sextets_length_not_1 (bytes : list N) :
  (N.of_nat (length (sextets_of bytes)) mod 4 =? 1) = false.
Proof.
  apply N.eqb_neq.
  destruct (encoded_length bytes) as (k & Hk & Hp & _).
  destruct (padding_cases bytes) as [H | [H | H]]; rewrite H in Hk; simpl in Hk; lia.
Qed.

(** [atob] undoes the encoder. *)
Lemma atob_base64_encode (bytes : list N) :
  Forall (fun b => b < 256) bytes -> atob (base64_encode bytes) = Normal bytes.
Proof.
  intros Hb. unfold atob.
  rewrite encoded_has_no_white_space, remove_padding_encoded by assumption.
  rewrite length_map, sextets_length_not_1.
  rewrite base64_indices_chars by now apply sextets_bounded.
  now rewrite decode_sextets_of.
Qed.

(** The loop copies the code units into the array, each modulo 256. *)
Lemma copy_char_codes_spec (s2 s1 done rest : list N) :
  length done = length s1 -> length rest = length s2 ->
  copy_char_codes (length s2) (length s1) (s1 ++ s2) (done ++ rest)
  = done ++ map (fun c => c mod 256) s2.
Proof.
  revert s1 done rest. induction s2 as [| c s2 IH]; intros s1 done rest Hd Hr.
  - destruct rest; [reflexivity | discriminate].
  - destruct rest as [| x rest]; [discriminate |]. simpl in Hr.
    change (copy_char_codes (length (c :: s2)) (length s1) (s1 ++ c :: s2) (done ++ x :: rest))
      with (copy_char_codes (length s2) (S (length s1)) (s1 ++ c :: s2)
              (uint8_set (done ++ x :: rest) (length s1)
                 (charCodeAt (s1 ++ c :: s2) (length s1)))).
    assert (Hc : charCodeAt (s1 ++ c :: s2) (length s1) = c).
    { unfold charCodeAt. rewrite app_nth2 by lia. now rewrite Nat.sub_diag. }
    assert (Hs : uint8_set (done ++ x :: rest) (length s1) c
                 = (done ++ [c mod 256]) ++ rest).
    { rewrite <- Hd. clear. induction done as [| d done IH]; simpl; [reflexivity |].
      now rewrite IH. }
    rewrite Hc, Hs.
    replace (S (length s1)) with (length (s1 ++ [c]))
      by (rewrite length_app; simpl; lia).
    replace (s1 ++ c :: s2) with ((s1 ++ [c]) ++ s2)
      by (now rewrite <- app_assoc).
    rewrite IH.
    + now rewrite <- app_assoc.
    + rewrite !length_app. simpl. lia.
    + lia.
Qed.

Lemma bytes_mod_256 (bytes : list N) :
  Forall (fun b => b < 256) bytes -> map (fun c => c mod 256) bytes = bytes.
Proof.
  induction 1 as [| b bytes Hb _ IH]; simpl; [reflexivity |].
  rewrite IH. f_equal. now apply N.mod_small.
Qed.

Lemma decoder_accepts_encoded (mime : jsstring) (bytes : list N) :
  mime <> [] ->
  forallb is_mime_char mime = true ->
  bytes <> [] ->
  Forall (fun b => b < 256) bytes ->
  base64DataUrlToBlob (data_url mime bytes) = Normal (new_Blob bytes mime).
Proof.
  intros Hm Hmc Hne Hb. unfold base64DataUrlToBlob, data_url.
  assert (Hpay : base64_encode bytes <> []).
  { destruct (encoded_length bytes) as (k & _ & _ & Hpos).
    specialize (Hpos Hne). unfold base64_encode.
    destruct (sextets_of bytes); [simpl in Hpos; lia | discriminate]. }
  rewrite match_data_url_accepts
    by (try assumption; now apply encoded_has_no_line_terminator).
  simpl negb. cbv iota. simpl nth.
  rewrite atob_base64_encode by assumption. cbv zeta.
  pose proof (copy_char_codes_spec bytes [] [] (repeat 0 (length bytes))
                eq_refl (repeat_length _ _)) as Hcopy.
  simpl in Hcopy. rewrite bytes_mod_256 in Hcopy by assumption.
  do 2 f_equal. exact Hcopy.
Qed.

(** The encoder on the test vectors of RFC 4648. *)
Lemma base64_encode_vectors :
  base64_encode (str "") = str ""
  /\ base64_encode (str "f") = str "Zg=="
  /\ base64_encode (str "fo") = str "Zm8="
  /\ base64_encode (str "foo") = str "Zm9v"
  /\ base64_encode (str "foob") = str "Zm9vYg=="
  /\ base64_encode (str "fooba") = str "Zm9vYmE="
  /\ base64_encode (str "foobar") = str "Zm9vYmFy".
Proof. repeat split. Qed.

(** C7, as stated, fails: the expression of the decoder accepts a media type
    only when it is made of letters, [-], [+] and [/], and a payload only
    when it is not empty.  The data URL of a JPEG 2000 image, whose media
    type [image/jp2] holds a digit, is refused, and so is the data URL of
    the empty sequence of bytes. *)
Lemma C7_media_type_with_a_digit :
  data_url (str "image/jp2") [0; 0; 0; 12] = str "data:image/jp2;base64,AAAADA=="
  /\ base64DataUrlToBlob (data_url (str "image/jp2") [0; 0; 0; 12])
     = Throw (Error (str "Invalid data URL format"))
  /\ data_url (str "image/png") [] = str "data:image/png;base64,"
  /\ base64DataUrlToBlob (data_url (str "image/png") [])
     = Throw (Error (str "Invalid data URL format")).
Proof. repeat split. Qed.

(** The code units of the class of the media type are printable ASCII, so
    the blob keeps the media type, in lower case. *)
Lemma Blob_type_of_media_type (mime : jsstring) :
  forallb is_mime_char mime = true -> Blob_type mime = ASCII_lowercase mime.
Proof.
  intros Hmc. unfold Blob_type.
  replace (forallb (fun c => (32 <=? c) && (c <=? 126)) mime) with true;
    [reflexivity |].
  symmetry. apply forallb_forall. intros c Hin.
  rewrite forallb_forall in Hmc. specialize (Hmc c Hin).
  unfold is_mime_char in Hmc.
  destruct (N.leb_spec 65 c), (N.leb_spec c 90), (N.leb_spec 97 c),
    (N.leb_spec c 122), (N.eqb_spec c 45), (N.eqb_spec c 43),
    (N.eqb_spec c 47); simpl in Hmc; try discriminate Hmc;
    apply andb_true_iff; split; apply N.leb_le; lia.
Qed.

Lemma ASCII_lowercase_without_capitals (s : jsstring) :
  (forall c, In c s -> c < 65 \/ 90 < c) -> ASCII_lowercase s = s.
Proof.
  induction s as [| c s IH]; intros H; simpl; [reflexivity |].
  rewrite IH by (intros x Hx; apply H; now right). f_equal.
  unfold ascii_lower.
  destruct (N.leb_spec 65 c), (N.leb_spec c 90); simpl; try reflexivity.
  destruct (H c (or_introl eq_refl)); lia.
Qed.

(** A media type in capitals is accepted, and the blob has it in lower
    case. *)
Lemma media_type_in_capitals :
  base64DataUrlToBlob (str "data:IMAGE/PNG;base64,iVBORw==")
  = Normal {| blob_bytes := [137; 80; 78; 71]; blob_type := str "image/png" |}.
Proof. reflexivity. Qed.

(** C7, amended: for a non-empty media type made only of letters, [-], [+]
    and [/], and a non-empty sequence of bytes, the decoder applied to the
    data URL of the base64 encoding returns a blob with exactly those bytes,
    whose type is the media type in lower case: the media type itself when
    it has no capital letter.  The handler of route.ts acquires this blob
    without any call. *)
Theorem C7_data_url_round_trip
    (env : Env) (w : World) (mime : jsstring) (bytes : list N) :
  mime <> [] ->
  forallb is_mime_char mime = true ->
  bytes <> [] ->
  Forall (fun b => b < 256) bytes ->
  exists imageBlob,
    base64DataUrlToBlob (data_url mime bytes) = Normal imageBlob
    /\ RouteTs.acquire_image env (VStr (data_url mime bytes)) w
       = (Normal imageBlob, w)
    /\ blob_bytes imageBlob = bytes
    /\ blob_type imageBlob = ASCII_lowercase mime
    /\ ((forall c, In c mime -> c < 65 \/ 90 < c) -> blob_type imageBlob = mime).
Proof.
  intros Hm Hmc Hne Hb.
  assert (Hdec := decoder_accepts_encoded mime bytes Hm Hmc Hne Hb).
  exists (new_Blob bytes mime).
  split; [exact Hdec |]. split.
  { assert (His : isBase64DataUrl (data_url mime bytes) = true)
      by (unfold isBase64DataUrl, startsWith, data_url; now rewrite strip_prefix_app).
    unfold RouteTs.acquire_image, bind, await, RouteTs.call_isBase64DataUrl,
      RouteTs.call_base64DataUrlToBlob.
    now rewrite His, Hdec. }
  split; [reflexivity |]. simpl blob_type.
  rewrite Blob_type_of_media_type by exact Hmc.
  split; [reflexivity |]. apply ASCII_lowercase_without_capitals.
Qed.

Lemma C7_witness :
  exists imageBlob,
    base64DataUrlToBlob (data_url (str "image/png") [137; 80; 78; 71])
    = Normal imageBlob
    /\ RouteTs.acquire_image env_ok
         (VStr (data_url (str "image/png") [137; 80; 78; 71])) world1
       = (Normal imageBlob, world1)
    /\ blob_bytes imageBlob = [137; 80; 78; 71]
    /\ blob_type imageBlob = ASCII_lowercase (str "image/png")
    /\ ((forall c, In c (str "image/png") -> c < 65 \/ 90 < c) ->
        blob_type imageBlob = str "image/png").
Proof.
  apply (C7_data_url_round_trip env_ok world1 (str "image/png") [137; 80; 78; 71]).
  - discriminate.
  - reflexivity.
  - discriminate.
  - repeat constructor.
Defined.

(* ================================================================== *)
(** * Further properties of the route *)

(** ** The guards before the pipeline *)

(** The response when the row does not load, with the member [details]
    that the error of the store gives. *)
Lemma POST_load_fails_response (h : handler) (env : Env) (body : js_value)
    (w : World) :
  fails_validation body = false ->
  payload_field body "status" = VStr (str "pending") ->
  (forall r0, select_error env (payload_field body "id") = None ->
              filter (selected env (payload_field body "id")) (jobs w) <> [r0]) ->
  POST h env (notification body) w
  = (Normal
       (NextResponse_json
          [ (str "error", VStr (str "Failed to fetch job from Supabase"));
            (str "details",
             opt_message (sel_error (fetched env (payload_field body "id") w))) ]
          500),
     record_call (StoreSelect (payload_field body "id")) w).
Proof.
  intros Hv Hs Hno. unfold fails_validation, payload_field, fetched in *.
  destruct h; unfold POST, RouteTs.POST, Part000.POST, try_catch, await,
    notification, req_json; unfold bind at 1; cbv zeta; rewrite Hv, Hs;
    change (strict_neq_str (VStr (str "pending")) (str "pending")) with false;
    cbv iota; unfold bind at 1; unfold supabase_select_single;
    (destruct (select_error env _) as [err |] eqn:He; [ reflexivity |]);
    (destruct (filter _ (jobs w)) as [| r0 [| r1 rest]] eqn:Hf;
       [ reflexivity | exfalso; now apply (Hno r0) | reflexivity ]).
Qed.

(** X1: when the read of the row fails, or selects no row or several, the
    answer is 500 with the error ["Failed to fetch job from Supabase"] and,
    as [details], the message the store gave; the read is the only call made
    and the table is left as it was. *)
Theorem X1_row_that_does_not_load
    (h : handler) (env : Env) (body : js_value) (w : World) :
  let id := payload_field body "id" in
  let w' := deliver h env (notification body) w in
  fails_validation body = false ->
  payload_field body "status" = VStr (str "pending") ->
  (forall r0, select_error env id = None ->
              filter (selected env id) (jobs w) <> [r0]) ->
  (exists response,
      response_of h env (notification body) w = Normal response
      /\ res_status response = 500
      /\ lookup (str "error") (res_body response)
         = VStr (str "Failed to fetch job from Supabase")
      /\ (forall e, select_error env id = Some e ->
                    lookup (str "details") (res_body response)
                    = VStr (pg_message e)))
  /\ calls w' = calls w ++ [StoreSelect id]
  /\ jobs w' = jobs w.
Proof.
  intros id w' Hv Hs Hno.
  assert (H := POST_load_fails_response h env body w Hv Hs Hno). fold id in H.
  unfold w', deliver, response_of. rewrite H. simpl fst. simpl snd.
  split; [| split; reflexivity].
  eexists. split; [reflexivity |]. split; [reflexivity |].
  unfold fetched, supabase_select_single. split.
  - destruct (select_error env id) as [err |]; [reflexivity |].
    now destruct (filter (selected env id) (jobs w)) as [| r0 [| r1 rest]].
  - intros e He. now rewrite He.
Qed.

Lemma X1_witness :
  let id := payload_field payload1 "id" in
  let w' := deliver route_ts env_store_down (notification payload1) world1 in
  (exists response,
      response_of route_ts env_store_down (notification payload1) world1
      = Normal response
      /\ res_status response = 500
      /\ lookup (str "error") (res_body response)
         = VStr (str "Failed to fetch job from Supabase")
      /\ (forall e, select_error env_store_down id = Some e ->
                    lookup (str "details") (res_body response)
                    = VStr (pg_message e)))
  /\ calls w' = calls world1 ++ [StoreSelect id]
  /\ jobs w' = jobs world1.
Proof.
  apply (X1_row_that_does_not_load route_ts env_store_down payload1 world1).
  - reflexivity.
  - reflexivity.
  - intros r0 H. discriminate H.
Defined.

(** ** Every way through a delivery *)

(** A request is stopped by the guards with the world untouched, or its row
    does not load, or it reaches the pipeline. *)
Lemma delivery_cases (h : handler) (env : Env) (req : NextRequest) (w : World) :
  (exists response,
      POST h env req w = (Normal response, w)
      /\ (res_status response = 400
          \/ response = not_pending_response
          \/ (res_status response = 500 /\ exists e, req_json req = Throw e)))
  \/ (exists body,
        req = notification body
        /\ fails_validation body = false
        /\ payload_field body "status" = VStr (str "pending")
        /\ forall r0, select_error env (payload_field body "id") = None ->
                      filter (selected env (payload_field body "id")) (jobs w)
                      <> [r0])
  \/ (exists body r0,
        req = notification body
        /\ fails_validation body = false
        /\ payload_field body "status" = VStr (str "pending")
        /\ select_error env (payload_field body "id") = None
        /\ filter (selected env (payload_field body "id")) (jobs w) = [r0]).
Proof.
  destruct req as [[body | e]].
  2: { left. eexists. split; [apply POST_unreadable_body |].
       right; right. split; [reflexivity | now exists e]. }
  change {| req_json := Normal body |} with (notification body).
  destruct (fails_validation body) eqn:Hv.
  { left. eexists. split; [now apply POST_invalid_payload |]. now left. }
  destruct (strict_neq_str (payload_field body "status") (str "pending")) eqn:Hs.
  { left. eexists. split; [now apply POST_not_pending |]. right; now left. }
  apply status_is_pending in Hs.
  destruct (select_error env (payload_field body "id")) as [err |] eqn:He.
  { right; left. exists body. repeat split; try assumption. intros r0 H.
    congruence. }
  destruct (filter (selected env (payload_field body "id")) (jobs w))
    as [| r0 [| r1 rest]] eqn:Hf.
  - right; left. exists body. repeat split; try assumption.
    intros r0 _ H. congruence.
  - right; right. exists body, r0. repeat split; assumption.
  - right; left. exists body. repeat split; try assumption.
    intros r2 _ H. congruence.
Qed.

(** The calls of the acquisition: none, or the one GET of the URL. *)
Lemma acquire_image_calls (h : handler) (env : Env) (url : js_value) (w : World) :
  exists acq,
    acquire_image h env url w = (fst (acquire_image h env url w), with_calls acq w)
    /\ (acq = [] \/ acq = [Fetch (Get url)]).
Proof.
  assert (Hnil : w = with_calls [] w)
    by (destruct w; unfold with_calls; simpl; now rewrite app_nil_r).
  destruct h; simpl.
  - unfold RouteTs.acquire_image, bind, await, throw, do_fetch.
    destruct (RouteTs.call_isBase64DataUrl url) as [[|] | e].
    + exists []. simpl. rewrite <- Hnil. auto.
    + exists [Fetch (Get url)]. split; [| now right].
      destruct (fetch env (Get url)) as [r | e]; [destruct (ok r) |]; reflexivity.
    + exists []. simpl. rewrite <- Hnil. auto.
  - unfold Part000.acquire_image, bind, await, throw, do_fetch.
    exists [Fetch (Get url)]. split; [| now right].
    destruct (fetch env (Get url)) as [r | e]; [destruct (ok r) |]; reflexivity.
Qed.

(** The calls and the outcome of the body of the inner [try]. *)
Lemma process_trace (h : handler) (env : Env) (id url : js_value)
    (w w3 : World) (out : completion NextResponse) :
  process h env id url w = (out, w3) ->
  exists acq sub,
    calls w3 = calls w ++ acq ++ sub
    /\ (acq = [] \/ acq = [Fetch (Get url)])
    /\ ((sub = [] /\ jobs w3 = jobs w /\ clock_reads w3 = clock_reads w
         /\ exists e, out = Throw e
                      /\ fst (acquire_image h env url w) = Throw e)
        \/ exists imageBlob,
             fst (acquire_image h env url w) = Normal imageBlob
             /\ ((sub = [Fetch (variations_request h env imageBlob)]
                  /\ jobs w3 = jobs w /\ clock_reads w3 = clock_reads w
                  /\ exists e, out = Throw e)
                 \/ exists u,
                      truthy u = true
                      /\ sub = [ Fetch (variations_request h env imageBlob);
                                 StoreUpdate id
                                   (complete_update h u
                                      (Date_now env (clock_reads w))) ]
                      /\ match update_error env id
                                 (complete_update h u
                                    (Date_now env (clock_reads w))) with
                         | Some err =>
                             out = Throw (Error (str "Failed to update job in Supabase: "
                                                   ++ pg_message err))
                             /\ jobs w3 = jobs w
                             /\ clock_reads w3 = clock_reads (clock_read h w)
                         | None =>
                             out = Normal (success_response (JSON_value u))
                             /\ jobs w3
                                = write_rows env id
                                    (complete_update h u
                                       (Date_now env (clock_reads w)))
                                    (jobs w)
                         end)).
Proof.
  intros Hp.
  destruct (acquire_image_calls h env url w) as (acq & Hrun & Hacq).
  assert (Hproc : process h env id url w
                  = bind (acquire_image h env url) (submit h env id) w)
    by (destruct h; reflexivity).
  rewrite Hproc in Hp. unfold bind in Hp. rewrite Hrun in Hp.
  destruct (fst (acquire_image h env url w)) as [imageBlob | e0].
  - destruct (submit_cases h env id imageBlob (with_calls acq w))
      as [[e1 H1] | (u & Hu & H1)]; cbv zeta in H1; rewrite H1 in Hp.
    + injection Hp as <- <-.
      exists acq, [Fetch (variations_request h env imageBlob)].
      split; [simpl; now rewrite <- app_assoc |]. split; [exact Hacq |].
      right. exists imageBlob. split; [reflexivity |]. left.
      repeat split; eauto.
    + exists acq, [ Fetch (variations_request h env imageBlob);
                    StoreUpdate id
                      (complete_update h u (Date_now env (clock_reads w))) ].
      simpl clock_reads in Hp.
      destruct (update_error env id
                  (complete_update h u (Date_now env (clock_reads w))))
        as [err |] eqn:Hup; injection Hp as <- <-.
      * split; [destruct h; simpl; now rewrite <- !app_assoc |].
        split; [exact Hacq |]. right. exists imageBlob.
        split; [reflexivity |]. right. exists u. split; [exact Hu |].
        split; [reflexivity |]. rewrite Hup.
        destruct h; repeat split; reflexivity.
      * split; [simpl; now rewrite <- !app_assoc |].
        split; [exact Hacq |]. right. exists imageBlob.
        split; [reflexivity |]. right. exists u. split; [exact Hu |].
        split; [reflexivity |]. rewrite Hup. split; reflexivity.
  - injection Hp as <- <-. exists acq, [].
    split; [now rewrite app_nil_r |]. split; [exact Hacq |]. left.
    repeat split; eauto.
Qed.

(** A delivery that reaches the pipeline answers with what the [try] body
    returns, or with the failure response once the [catch] has issued its
    update. *)
Lemma pipeline_trace (h : handler) (env : Env) (body : js_value) (w : World)
    (r0 : job) :
  let id := payload_field body "id" in
  let url := payload_field body "input_image_url" in
  let w' := deliver h env (notification body) w in
  fails_validation body = false ->
  payload_field body "status" = VStr (str "pending") ->
  select_error env id = None ->
  filter (selected env id) (jobs w) = [r0] ->
  exists out w3,
    process h env id url (claimed env id w) = (out, w3)
    /\ match out with
       | Normal response =>
           response_of h env (notification body) w = Normal response /\ w' = w3
       | Throw e =>
           let p := failed_update h e (Date_now env (clock_reads w3)) in
           response_of h env (notification body) w = Normal (failure_response e)
           /\ calls w' = calls w3 ++ [StoreUpdate id p]
           /\ jobs w' = match update_error env id p with
                        | None => write_rows env id p (jobs w3)
                        | Some _ => jobs w3
                        end
       end.
Proof.
  intros id url w' Hv Hs He Hf.
  assert (Hp := POST_pending h env body w r0 Hv Hs He Hf). fold id url in Hp.
  destruct (process h env id url (claimed env id w)) as [[response | e] w3] eqn:Hrun;
    [exists (Normal response), w3 | exists (Throw e), w3];
    (split; [reflexivity |]).
  - unfold w', deliver, response_of. rewrite Hp. now split.
  - rewrite on_process_error_run in Hp. cbv zeta.
    unfold w', deliver, response_of. rewrite Hp. simpl fst. simpl snd.
    split; [reflexivity |]. rewrite calls_update, jobs_update.
    destruct h; split; reflexivity.
Qed.

(** What a delivery writes, it writes to the rows that the [id] of its
    payload selects, and it is the object of one of the three updates. *)
Lemma delivery_writes (h : handler) (env : Env) (req : NextRequest) (w : World) :
  jobs (deliver h env req w) = jobs w
  \/ exists p,
       jobs (deliver h env req w) = write_rows env (payload_id req) p (jobs w)
       /\ (p = processing_update
           \/ (exists u now,
                 p = complete_update h u now
                 /\ truthy u = true
                 /\ response_of h env req w
                    = Normal (success_response (JSON_value u)))
           \/ (exists e now, p = failed_update h e now)).
Proof.
  destruct (delivery_cases h env req w)
    as [(response & Hr & _) | [(body & -> & Hv & Hs & Hno) | (body & r0 & -> & Hv & Hs & He & Hf)]].
  - left. unfold deliver. now rewrite Hr.
  - left. unfold deliver.
    now rewrite (POST_load_fails_response h env body w Hv Hs Hno).
  - change (payload_id (notification body)) with (payload_field body "id").
    set (id := payload_field body "id") in *.
    destruct (pipeline_trace h env body w r0 Hv Hs He Hf) as (out & w3 & Hrun & Hout).
    fold id in Hrun, Hout.
    assert (Hclaimed : forall rows, rows = jobs (claimed env id w) ->
               rows = jobs w
               \/ exists p,
                    rows = write_rows env id p (jobs w)
                    /\ (p = processing_update
                        \/ (exists u now,
                              p = complete_update h u now
                              /\ truthy u = true
                              /\ response_of h env (notification body) w
                                 = Normal (success_response (JSON_value u)))
                        \/ (exists e now, p = failed_update h e now))).
    { intros rows ->. destruct (jobs_claimed env id w) as [-> | ->]; eauto. }
    assert (Hthrow : forall e, out = Throw e -> jobs w3 = jobs (claimed env id w) ->
               jobs (deliver h env (notification body) w) = jobs w
               \/ exists p,
                    jobs (deliver h env (notification body) w)
                    = write_rows env id p (jobs w)
                    /\ (p = processing_update
                        \/ (exists u now,
                              p = complete_update h u now
                              /\ truthy u = true
                              /\ response_of h env (notification body) w
                                 = Normal (success_response (JSON_value u)))
                        \/ (exists e now, p = failed_update h e now))).
    { intros e -> Hj. destruct Hout as (_ & _ & ->).
      destruct (update_error env id _).
      - apply Hclaimed. exact Hj.
      - right. eexists. split.
        + rewrite Hj. apply write_rows_claimed with (str "failed"). now destruct h.
        + right; right. eauto. }
    apply process_trace in Hrun
      as (acq & sub & _ & _ & [(_ & Hj & _ & e & -> & _) | (b & _ & [(_ & Hj & _ & e & ->) | (u & Hu & _ & Hup)])]).
    + now apply (Hthrow e).
    + now apply (Hthrow e).
    + destruct (update_error env id
                  (complete_update h u (Date_now env (clock_reads (claimed env id w)))))
        as [err |].
      * destruct Hup as (-> & Hj & _). now apply (Hthrow _ eq_refl).
      * destruct Hup as (-> & Hj). destruct Hout as [Hresp ->]. right. eexists. split.
        -- rewrite Hj. apply write_rows_claimed with (str "complete"). now destruct h.
        -- right; left. eauto.
Qed.

(** C8, amended: a row that held neither [result_image_url] nor
    [error_message] before a delivery, and that the delivery has changed,
    holds no [error_message] if its status is now ["complete"], and its
    [result_image_url] is then what the success response carries: the URL
    of the image API as JSON carries it, so it is set whenever that URL is a
    string and is NULL only for a value that JSON writes as [null].  If its
    status is now ["failed"] it holds [error_message] and no
    [result_image_url]. *)
Theorem C8_one_outcome_after_one_delivery
    (h : handler) (env : Env) (req : NextRequest) (w : World)
    (i : nat) (r r' : job) :
  nth_error (jobs w) i = Some r ->
  nth_error (jobs (deliver h env req w)) i = Some r' ->
  r' <> r ->
  result_image_url r = None ->
  error_message r = None ->
  (status r' = str "complete" ->
   error_message r' = None
   /\ exists u,
        truthy u = true
        /\ response_of h env req w = Normal (success_response (JSON_value u))
        /\ result_image_url r' = column_of (JSON_value u)
        /\ (forall s, u = VStr s -> result_image_url r' = Some (VStr s)))
  /\ (status r' = str "failed" ->
      error_message r' <> None /\ result_image_url r' = None).
Proof.
  intros Hr Hr' Hneq Hres Herr.
  destruct (delivery_writes h env req w) as [Hj | (p & Hj & Hp)]; rewrite Hj in Hr'.
  { congruence. }
  unfold write_rows in Hr'. rewrite nth_error_map, Hr in Hr'. simpl in Hr'.
  destruct (selected env (payload_id req) r); [| congruence].
  injection Hr' as <-.
  destruct Hp as [-> | [(u & now & -> & Hu & Hresp) | (e & now & ->)]].
  - split; intros H; discriminate H.
  - split; [| destruct h; intros H; discriminate H]. intros _.
    assert (Hcol : result_image_url (apply_patch (complete_update h u now) r)
                   = column_of (JSON_value u)).
    { rewrite <- (write_column_truthy u (result_image_url r) Hu). now destruct h. }
    split; [destruct h; exact Herr |].
    exists u. split; [exact Hu |]. split; [exact Hresp |]. split; [exact Hcol |].
    intros s ->. exact Hcol.
  - split; [destruct h; intros H; discriminate H |]. intros _.
    split; [destruct h; discriminate | destruct h; exact Hres].
Qed.

Lemma C8_witness :
  let u := VStr (str "https://cdn.example.com/out.png") in
  let r' := apply_patch (complete_update route_ts u (time_stamp 0)) job1 in
  (status r' = str "complete" ->
   error_message r' = None
   /\ exists u0,
        truthy u0 = true
        /\ response_of route_ts env_ok (notification payload1) world1
           = Normal (success_response (JSON_value u0))
        /\ result_image_url r' = column_of (JSON_value u0)
        /\ (forall s, u0 = VStr s -> result_image_url r' = Some (VStr s)))
  /\ (status r' = str "failed" ->
      error_message r' <> None /\ result_image_url r' = None).
Proof.
  apply (C8_one_outcome_after_one_delivery route_ts env_ok (notification payload1)
           world1 0 job1
           (apply_patch
              (complete_update route_ts (VStr (str "https://cdn.example.com/out.png"))
                 (time_stamp 0)) job1)).
  - reflexivity.
  - reflexivity.
  - discriminate.
  - reflexivity.
  - reflexivity.
Defined.

(** X2: the handler always answers, and with status 200, 400 or 500: no
    exception leaves it, whatever the request and the outside world. *)
Theorem X2_always_answers
    (h : handler) (env : Env) (req : NextRequest) (w : World) :
  exists response,
    response_of h env req w = Normal response
    /\ (res_status response = 200
        \/ res_status response = 400
        \/ res_status response = 500).
Proof.
  unfold response_of.
  destruct (delivery_cases h env req w)
    as [(response & Hr & Hst) | [(body & -> & Hv & Hs & Hno) | (body & r0 & -> & Hv & Hs & He & Hf)]].
  - exists response. rewrite Hr. split; [reflexivity |].
    destruct Hst as [H | [-> | [H _]]]; auto.
  - rewrite (POST_load_fails_response h env body w Hv Hs Hno).
    eexists. split; [reflexivity |]. right; right. reflexivity.
  - destruct (pipeline_trace h env body w r0 Hv Hs He Hf) as (out & w3 & Hrun & Hout).
    unfold response_of in Hout. destruct out as [response | e].
    + destruct Hout as [-> _]. exists response. split; [reflexivity |].
      apply process_returns in Hrun as (u & now & _ & -> & _). now left.
    + destruct Hout as (-> & _). eexists. split; [reflexivity |].
      right; right. reflexivity.
Qed.

(** X3: a delivery never adds or removes a row, never changes the [id] or
    the [input_image_url] of a row, and leaves every row that the [id] of
    its payload does not select exactly as it was. *)
Theorem X3_other_rows_are_untouched
    (h : handler) (env : Env) (req : NextRequest) (w : World)
    (i : nat) (r r' : job) :
  nth_error (jobs w) i = Some r ->
  nth_error (jobs (deliver h env req w)) i = Some r' ->
  length (jobs (deliver h env req w)) = length (jobs w)
  /\ id r' = id r
  /\ input_image_url r' = input_image_url r
  /\ (selected env (payload_id req) r = false -> r' = r).
Proof.
  intros Hr Hr'.
  destruct (delivery_writes h env req w) as [Hj | (p & Hj & _)]; rewrite Hj in Hr' |- *.
  - assert (r' = r) by congruence. subst. auto.
  - unfold write_rows in *. rewrite length_map.
    rewrite nth_error_map, Hr in Hr'. simpl in Hr'. injection Hr' as <-.
    destruct (selected env (payload_id req) r); repeat split; try reflexivity.
    discriminate.
Qed.

Lemma X3_witness :
  length (jobs (deliver route_ts env_ok (notification payload1) world2))
  = length (jobs world2)
  /\ id job2 = id job2
  /\ input_image_url job2 = input_image_url job2
  /\ (selected env_ok (payload_id (notification payload1)) job2 = false ->
      job2 = job2).
Proof.
  apply (X3_other_rows_are_untouched route_ts env_ok (notification payload1)
           world2 1 job2 job2); reflexivity.
Defined.

(** X5: an answer with status 200 is either the message that the job is not
    pending, with the world untouched, or the success response, whose
    [result_image_url] is the truthy URL of the image API as JSON carries
    it; and the success response is given only after the store has accepted
    the completing update, which is then the last call and has written that
    URL to the selected rows. *)
Theorem X5_success_means_stored
    (h : handler) (env : Env) (req : NextRequest) (w : World)
    (response : NextResponse) :
  let id := payload_id req in
  let w' := deliver h env req w in
  response_of h env req w = Normal response ->
  res_status response = 200 ->
  (response = not_pending_response /\ w' = w)
  \/ exists u now,
       truthy u = true
       /\ response = success_response (JSON_value u)
       /\ update_error env id (complete_update h u now) = None
       /\ jobs w' = write_rows env id (complete_update h u now) (jobs w)
       /\ exists cs,
            calls w' = calls w ++ cs ++ [StoreUpdate id (complete_update h u now)].
Proof.
  intros id w' Hresp H200. unfold response_of in Hresp. subst id w'.
  destruct (delivery_cases h env req w)
    as [(resp & Hr & Hst) | [(body & -> & Hv & Hs & Hno) | (body & r0 & -> & Hv & Hs & He & Hf)]].
  - rewrite Hr in Hresp. simpl in Hresp. injection Hresp as ->.
    destruct Hst as [H | [-> | [H _]]]; try congruence.
    left. unfold deliver. now rewrite Hr.
  - rewrite (POST_load_fails_response h env body w Hv Hs Hno) in Hresp.
    simpl in Hresp. injection Hresp as <-. discriminate H200.
  - change (payload_id (notification body)) with (payload_field body "id").
    destruct (pipeline_trace h env body w r0 Hv Hs He Hf) as (out & w3 & Hrun & Hout).
    unfold response_of in Hout. destruct out as [resp | e].
    2: { destruct Hout as (Hout & _). rewrite Hout in Hresp.
         injection Hresp as <-. discriminate H200. }
    destruct Hout as [Hout ->]. rewrite Hout in Hresp. injection Hresp as ->.
    right.
    apply process_trace in Hrun
      as (acq & sub & Hc & _ & [(_ & _ & _ & e & He' & _) | (b & _ & [(_ & _ & _ & e & He') | (u & Hu & -> & Hup)])]);
      try discriminate He'.
    rewrite clock_claimed in *.
    destruct (update_error env (payload_field body "id")
                (complete_update h u (Date_now env (clock_reads w)))) eqn:Hacc;
      [destruct Hup as (Hup & _); discriminate Hup |].
    destruct Hup as (Hup & Hj). injection Hup as ->.
    exists u, (Date_now env (clock_reads w)).
    split; [exact Hu |]. split; [reflexivity |]. split; [exact Hacc |]. split.
    + rewrite Hj. apply write_rows_claimed with (str "complete"). now destruct h.
    + exists ([StoreSelect (payload_field body "id");
               StoreUpdate (payload_field body "id") processing_update]
              ++ acq ++ [Fetch (variations_request h env b)]).
      rewrite Hc, calls_claimed. now rewrite <- !app_assoc.
Qed.

Lemma X5_witness :
  let id := payload_id (notification payload1) in
  let w' := deliver route_ts env_ok (notification payload1) world1 in
  (success_response (VStr (str "https://cdn.example.com/out.png"))
   = not_pending_response /\ w' = world1)
  \/ exists u now,
       truthy u = true
       /\ success_response (VStr (str "https://cdn.example.com/out.png"))
          = success_response (JSON_value u)
       /\ update_error env_ok id (complete_update route_ts u now) = None
       /\ jobs w' = write_rows env_ok id (complete_update route_ts u now) (jobs world1)
       /\ exists cs,
            calls w'
            = calls world1 ++ cs ++ [StoreUpdate id (complete_update route_ts u now)].
Proof.
  apply (X5_success_means_stored route_ts env_ok (notification payload1) world1
           (success_response (VStr (str "https://cdn.example.com/out.png"))));
    reflexivity.
Defined.

(** X4: the calls of one delivery.  There are at most six; the first, if
    there is any, is the read of the row that the [id] of the payload
    names; every call to the store names that row; and there is at most one
    HTTP GET, at most one HTTP POST and at most three writes: nothing is
    tried a second time. *)
Theorem X4_calls_of_a_delivery
    (h : handler) (env : Env) (req : NextRequest) (w : World) :
  exists cs,
    calls (deliver h env req w) = calls w ++ cs
    /\ (length cs <= 6)%nat
    /\ (cs = [] \/ exists rest, cs = StoreSelect (payload_id req) :: rest)
    /\ Forall (on_row (payload_id req)) cs
    /\ (length (filter is_http_get cs) <= 1)%nat
    /\ (length (filter is_http_post cs) <= 1)%nat
    /\ (length (filter is_store_update cs) <= 3)%nat.
Proof.
  destruct (delivery_cases h env req w)
    as [(response & Hr & _) | [(body & -> & Hv & Hs & Hno) | (body & r0 & -> & Hv & Hs & He & Hf)]].
  - exists []. unfold deliver. rewrite Hr. simpl. rewrite app_nil_r.
    repeat split; auto; lia.
  - exists [StoreSelect (payload_field body "id")]. unfold deliver.
    rewrite (POST_load_fails_response h env body w Hv Hs Hno). simpl.
    split; [reflexivity |]. split; [lia |].
    split; [right; now exists [] |].
    split; [repeat constructor |]. repeat split; lia.
  - change (payload_id (notification body)) with (payload_field body "id").
    set (id := payload_field body "id") in *.
    destruct (pipeline_trace h env body w r0 Hv Hs He Hf) as (out & w3 & Hrun & Hout).
    fold id in Hrun, Hout.
    apply process_trace in Hrun as (acq & sub & Hc & Hacq & Hsub).
    rewrite calls_claimed in Hc.
    assert (Hfin : exists fin,
               calls (deliver h env (notification body) w) = calls w3 ++ fin
               /\ (fin = [] \/ exists p, fin = [StoreUpdate id p])).
    { destruct out as [response | e].
      - destruct Hout as [_ ->]. exists []. rewrite app_nil_r. auto.
      - destruct Hout as (_ & -> & _). eexists. split; [reflexivity |]. eauto. }
    destruct Hfin as (fin & Hw' & Hfin).
    assert (Hsub' : sub = []
                    \/ (exists b, sub = [Fetch (variations_request h env b)])
                    \/ exists b p, sub = [Fetch (variations_request h env b);
                                          StoreUpdate id p]).
    { destruct Hsub as [(-> & _) | (b & _ & [(-> & _) | (u & _ & -> & _)])]; eauto. }
    clear Hsub Hout.
    exists ([StoreSelect id; StoreUpdate id processing_update] ++ acq ++ sub ++ fin).
    split; [rewrite Hw', Hc; now rewrite <- !app_assoc |].
    destruct Hacq as [-> | ->];
      destruct Hsub' as [-> | [[b ->] | (b & p & ->)]];
      destruct Hfin as [-> | [q ->]];
      destruct h; simpl;
      (split; [lia |]);
      (split; [right; eexists; reflexivity |]);
      (split; [repeat constructor |]);
      repeat split; lia.
Qed.

(** ** The decoder *)

Lemma list_ind4 {A : Type} (P : list A -> Prop) :
  P [] -> (forall a, P [a]) -> (forall a b, P [a; b]) ->
  (forall a b c, P [a; b; c]) ->
  (forall a b c d l, P l -> P (a :: b :: c :: d :: l)) ->
  forall l, P l.
Proof.
  intros H0 H1 H2 H3 H4 l.
  assert (H : P l /\ (forall a, P (a :: l)) /\ (forall a b, P (a :: b :: l))
              /\ (forall a b c, P (a :: b :: c :: l))).
  { induction l as [| x l (IH0 & IH1 & IH2 & IH3)].
    - auto.
    - repeat split; auto. }
  apply H.
Qed.

Lemma base64_index_bounded (c : code_unit) (i : N) :
  base64_index c = Some i -> i < 64.
Proof.
  unfold base64_index.
  destruct (N.leb_spec 65 c), (N.leb_spec c 90), (N.leb_spec 97 c),
    (N.leb_spec c 122), (N.leb_spec 48 c), (N.leb_spec c 57),
    (N.eqb_spec c 43), (N.eqb_spec c 47); simpl; intros Heq;
    try discriminate Heq; injection Heq as <-; lia.
Qed.

Lemma base64_indices_bounded (s : jsstring) (sx : list N) :
  base64_indices s = Some sx -> Forall (fun i => i < 64) sx.
Proof.
  revert sx; induction s as [| c s IH]; intros sx H; simpl in H.
  - injection H as <-. constructor.
  - destruct (base64_index c) as [i |] eqn:Hi; [| discriminate].
    destruct (base64_indices s) as [r |]; [| discriminate].
    injection H as <-. constructor; [now apply base64_index_bounded with c | auto].
Qed.

Lemma decode_sextets_bounded (sx : list N) :
  Forall (fun i => i < 64) sx -> Forall (fun b => b < 256) (decode_sextets sx).
Proof.
  induction sx as [| a | a b | a b c | a b c d rest IH] using list_ind4; intros H.
  - constructor.
  - constructor.
  - inversion_clear H as [| ? ? Ha H']. inversion_clear H' as [| ? ? Hb _].
    simpl. repeat constructor. lia.
  - inversion_clear H as [| ? ? Ha H']. inversion_clear H' as [| ? ? Hb H''].
    inversion_clear H'' as [| ? ? Hc _]. simpl. repeat constructor; lia.
  - inversion_clear H as [| ? ? Ha H']. inversion_clear H' as [| ? ? Hb H''].
    inversion_clear H'' as [| ? ? Hc H''']. inversion_clear H''' as [| ? ? Hd Hrest].
    change (decode_sextets (a :: b :: c :: d :: rest))
      with (let n := a * 262144 + b * 4096 + c * 64 + d in
            (n / 65536) :: ((n / 256) mod 256) :: (n mod 256)
            :: decode_sextets rest).
    cbv zeta. repeat (constructor; [lia |]). now apply IH.
Qed.

(** What [atob] returns is a binary string. *)
Lemma atob_bounded (data binaryString : jsstring) :
  atob data = Normal binaryString -> Forall (fun b => b < 256) binaryString.
Proof.
  unfold atob.
  destruct (base64_indices _) as [sx |] eqn:Hsx; [| discriminate].
  destruct (_ =? 1); [discriminate |].
  intros H. injection H as <-.
  apply decode_sextets_bounded. now apply base64_indices_bounded in Hsx.
Qed.

(** X6: what the decoder accepts.  A string for which it returns a blob
    starts with [data:] (so it is one the handler routes to the decoder),
    and is [data:], a media type, [;base64,] and a payload that [atob]
    decodes to exactly the bytes of the blob; the media type is not empty
    and made of letters, [-], [+] and [/], the type of the blob is that
    media type in lower case, and every byte is below 256. *)
Theorem X6_decoder_is_sound (s : jsstring) (b : Blob) :
  base64DataUrlToBlob s = Normal b ->
  isBase64DataUrl s = true
  /\ Forall (fun x => x < 256) (blob_bytes b)
  /\ exists mime payload,
       s = str "data:" ++ mime ++ str ";base64," ++ payload
       /\ mime <> []
       /\ forallb is_mime_char mime = true
       /\ blob_type b = ASCII_lowercase mime
       /\ payload <> []
       /\ atob payload = Normal (blob_bytes b).
Proof.
  unfold base64DataUrlToBlob. intros H.
  destruct (match_data_url s) as [ms |] eqn:Hms; [| discriminate].
  apply match_data_url_Some in Hms
    as (mime & payload & -> & Hs & Hm & Hmc & Hp & Hd).
  simpl in H.
  destruct (atob payload) as [binaryString | e] eqn:Hatob; [| discriminate].
  assert (Hb := atob_bounded _ _ Hatob).
  pose proof (copy_char_codes_spec binaryString [] []
                (repeat 0 (length binaryString)) eq_refl (repeat_length _ _))
    as Hcopy.
  simpl in Hcopy. rewrite bytes_mod_256 in Hcopy by assumption.
  injection H as <-. simpl.
  assert (Hbytes : copy_char_codes (length binaryString) 0 binaryString
                     (repeat 0 (length binaryString)) = binaryString)
    by exact Hcopy.
  split.
  { unfold isBase64DataUrl, startsWith. rewrite Hs. now rewrite strip_prefix_app. }
  split.
  { unfold jsstring, code_unit in *. rewrite Hbytes. exact Hb. }
  exists mime, payload. split; [exact Hs |]. split; [exact Hm |].
  split; [exact Hmc |]. split; [now apply Blob_type_of_media_type |].
  split; [exact Hp |].
  unfold jsstring, code_unit in *. now rewrite Hbytes.
Qed.

Lemma X6_witness :
  isBase64DataUrl (str "data:IMAGE/PNG;base64,iVBORw==") = true
  /\ Forall (fun x => x < 256) (blob_bytes png)
  /\ exists mime payload,
       str "data:IMAGE/PNG;base64,iVBORw=="
       = str "data:" ++ mime ++ str ";base64," ++ payload
       /\ mime <> []
       /\ forallb is_mime_char mime = true
       /\ blob_type png = ASCII_lowercase mime
       /\ payload <> []
       /\ atob payload = Normal (blob_bytes png).
Proof.
  apply (X6_decoder_is_sound (str "data:IMAGE/PNG;base64,iVBORw==") png).
  reflexivity.
Defined.

Lemma alphabet_only (sx : list N) :
  Forall (fun s => s < 64) sx ->
  filter (fun c => negb (is_ascii_whitespace c)) (map base64_char sx)
  = map base64_char sx
  /\ forallb dot (map base64_char sx) = true.
Proof.
  induction 1 as [| s sx Hs _ [IH1 IH2]]; simpl; [auto |].
  destruct (alphabet_char _ _ (base64_index_char s Hs)) as (-> & _ & ->).
  simpl. now rewrite IH1.
Qed.

(** The payload without its padding decodes as the padded one. *)
Lemma decoder_accepts_unpadded (mime : jsstring) (bytes : list N) :
  mime <> [] ->
  forallb is_mime_char mime = true ->
  bytes <> [] ->
  Forall (fun b => b < 256) bytes ->
  base64DataUrlToBlob
    (str "data:" ++ mime ++ str ";base64," ++ map base64_char (sextets_of bytes))
  = Normal (new_Blob bytes mime).
Proof.
  intros Hm Hmc Hne Hb.
  assert (Hsx := sextets_bounded bytes Hb).
  destruct (alphabet_only _ Hsx) as [Hws Hdot].
  assert (Hpay : map base64_char (sextets_of bytes) <> []).
  { destruct (encoded_length bytes) as (k & _ & _ & Hpos). specialize (Hpos Hne).
    destruct (sextets_of bytes); [simpl in Hpos; lia | discriminate]. }
  unfold base64DataUrlToBlob.
  rewrite match_data_url_accepts by assumption.
  simpl negb. cbv iota. simpl nth.
  assert (Hatob : atob (map base64_char (sextets_of bytes)) = Normal bytes).
  { unfold atob. rewrite Hws.
    assert (Hrm : remove_padding (map base64_char (sextets_of bytes))
                  = map base64_char (sextets_of bytes)).
    { unfold remove_padding. destruct (_ =? 0); [| reflexivity].
      now rewrite !drop_final_equals_alphabet. }
    rewrite Hrm, length_map, sextets_length_not_1.
    rewrite base64_indices_chars by assumption.
    now rewrite decode_sextets_of. }
  rewrite Hatob. cbv zeta.
  pose proof (copy_char_codes_spec bytes [] [] (repeat 0 (length bytes))
                eq_refl (repeat_length _ _)) as Hcopy.
  simpl in Hcopy. rewrite bytes_mod_256 in Hcopy by assumption.
  do 2 f_equal. exact Hcopy.
Qed.

(** X7: the padding is optional.  The data URL whose payload is the base64
    encoding of the bytes without the [=] signs at its end is decoded to the
    same blob as the padded one: the bytes, with the media type in lower
    case as its type. *)
Theorem X7_padding_is_optional (mime : jsstring) (bytes : list N) :
  mime <> [] ->
  forallb is_mime_char mime = true ->
  bytes <> [] ->
  Forall (fun b => b < 256) bytes ->
  exists b,
    base64DataUrlToBlob
      (str "data:" ++ mime ++ str ";base64," ++ map base64_char (sextets_of bytes))
    = Normal b
    /\ base64DataUrlToBlob (data_url mime bytes) = Normal b
    /\ blob_bytes b = bytes
    /\ blob_type b = ASCII_lowercase mime.
Proof.
  intros Hm Hmc Hne Hb. exists (new_Blob bytes mime).
  split; [now apply decoder_accepts_unpadded |].
  split; [now apply decoder_accepts_encoded |].
  split; [reflexivity |]. now apply Blob_type_of_media_type.
Qed.

Lemma X7_witness :
  exists b,
    base64DataUrlToBlob
      (str "data:" ++ str "IMAGE/PNG" ++ str ";base64,"
         ++ map base64_char (sextets_of [137; 80; 78; 71]))
    = Normal b
    /\ base64DataUrlToBlob (data_url (str "IMAGE/PNG") [137; 80; 78; 71])
       = Normal b
    /\ blob_bytes b = [137; 80; 78; 71]
    /\ blob_type b = ASCII_lowercase (str "IMAGE/PNG").
Proof.
  apply (X7_padding_is_optional (str "IMAGE/PNG") [137; 80; 78; 71]).
  - discriminate.
  - reflexivity.
  - discriminate.
  - repeat constructor.
Defined.

(** ** The failures of the pipeline, one by one *)

Lemma with_calls_app (cs1 cs2 : list call) (w : World) :
  with_calls cs2 (with_calls cs1 w) = with_calls (cs1 ++ cs2) w.
Proof. unfold with_calls. simpl. now rewrite app_assoc. Qed.

(** What a delivery does when the [try] body throws [e] after the calls
    [cs]. *)
Lemma failure_delivery (h : handler) (env : Env) (body : js_value) (w : World)
    (r0 : job) (e : js_error) (cs : list call) :
  let id := payload_field body "id" in
  let url := payload_field body "input_image_url" in
  let p := failed_update h e (Date_now env (clock_reads w)) in
  let w' := deliver h env (notification body) w in
  truthy id = true ->
  truthy url = true ->
  payload_field body "status" = VStr (str "pending") ->
  select_error env id = None ->
  filter (selected env id) (jobs w) = [r0] ->
  process h env id url (claimed env id w)
  = (Throw e, with_calls cs (claimed env id w)) ->
  response_of h env (notification body) w = Normal (failure_response e)
  /\ calls w'
     = calls w ++ [StoreSelect id; StoreUpdate id processing_update] ++ cs
       ++ [StoreUpdate id p]
  /\ (update_error env id p = None ->
      forall r', In r' (jobs w') -> selected env id r' = true ->
        status r' = str "failed" /\ error_message r' = Some (message e)).
Proof.
  intros id url p w' Hid Hurl Hs He Hf Hrun.
  destruct (caught_by_inner_catch h env body w r0 e _ Hid Hurl Hs He Hf Hrun)
    as (Hresp & Hcalls & _ & Hrows).
  simpl clock_reads in Hcalls, Hrows. rewrite clock_claimed in Hcalls, Hrows.
  fold id p w' in Hcalls, Hrows.
  split; [exact Hresp |]. split.
  - rewrite Hcalls. simpl. rewrite calls_claimed. now rewrite <- !app_assoc.
  - intros Hacc r' Hin Hsel. destruct (Hrows Hacc r' Hin Hsel) as (? & ? & _).
    now split.
Qed.

(** X9: an image whose download does not succeed.  When the GET of
    [input_image_url] answers with a status that is not a success, the
    answer is 500 with ["Failed to download input image: "] and the status
    text as [details]; the image API is not called, the call after the GET
    is the update that writes ["failed"] and that message, and when the
    store accepts it the selected rows hold them. *)
Theorem X9_download_that_fails
    (h : handler) (env : Env) (body : js_value) (w : World) (r0 : job)
    (imageResponse : Response) :
  let id := payload_field body "id" in
  let url := payload_field body "input_image_url" in
  let e := Error (str "Failed to download input image: "
                    ++ statusText imageResponse) in
  let p := failed_update h e (Date_now env (clock_reads w)) in
  let w' := deliver h env (notification body) w in
  truthy id = true ->
  truthy url = true ->
  payload_field body "status" = VStr (str "pending") ->
  select_error env id = None ->
  filter (selected env id) (jobs w) = [r0] ->
  (h = part_000 \/ exists s, url = VStr s /\ isBase64DataUrl s = false) ->
  fetch env (Get url) = Normal imageResponse ->
  ok imageResponse = false ->
  response_of h env (notification body) w = Normal (failure_response e)
  /\ calls w'
     = calls w ++ [ StoreSelect id; StoreUpdate id processing_update;
                    Fetch (Get url); StoreUpdate id p ]
  /\ (update_error env id p = None ->
      forall r', In r' (jobs w') -> selected env id r' = true ->
        status r' = str "failed" /\ error_message r' = Some (message e)).
Proof.
  intros id url e p w' Hid Hurl Hs He Hf Hremote Hfetch Hok.
  assert (Hrun : process h env id url (claimed env id w)
                 = (Throw e, with_calls [Fetch (Get url)] (claimed env id w))).
  { apply download_refused; try assumption.
    destruct h; [| exact I].
    destruct Hremote as [H | (s & Hs' & Hd)]; [discriminate H |].
    rewrite Hs'. simpl. now rewrite Hd. }
  exact (failure_delivery h env body w r0 e _ Hid Hurl Hs He Hf Hrun).
Qed.

Lemma X9_witness :
  let id := payload_field payload1 "id" in
  let url := payload_field payload1 "input_image_url" in
  let e := Error (str "Failed to download input image: "
                    ++ statusText not_found_reply) in
  let p := failed_update part_000 e (Date_now env_no_image (clock_reads world1)) in
  let w' := deliver part_000 env_no_image (notification payload1) world1 in
  response_of part_000 env_no_image (notification payload1) world1
  = Normal (failure_response e)
  /\ calls w'
     = calls world1 ++ [ StoreSelect id; StoreUpdate id processing_update;
                         Fetch (Get url); StoreUpdate id p ]
  /\ (update_error env_no_image id p = None ->
      forall r', In r' (jobs w') -> selected env_no_image id r' = true ->
        status r' = str "failed" /\ error_message r' = Some (message e)).
Proof.
  apply (X9_download_that_fails part_000 env_no_image payload1 world1 job1
           not_found_reply); try reflexivity.
  now left.
Defined.

(** The [try] body when the image API does not answer with success. *)
Lemma api_refused_run (h : handler) (env : Env) (id url : js_value) (w w0 : World)
    (imageBlob : Blob) (openAIResponse : Response) (errorText : jsstring) :
  fst (acquire_image h env url w0) = Normal imageBlob ->
  fetch env (variations_request h env imageBlob) = Normal openAIResponse ->
  ok openAIResponse = false ->
  text openAIResponse = Normal errorText ->
  exists acq,
    (acq = [] \/ acq = [Fetch (Get url)])
    /\ process h env id url w
       = (Throw (Error (str "OpenAI API error: "
                          ++ String_of_N (http_status openAIResponse)
                          ++ str " " ++ errorText)),
          with_calls (acq ++ [Fetch (variations_request h env imageBlob)]) w).
Proof.
  intros Ha Hf Hok Ht.
  destruct (acquire_image_calls h env url w) as (acq & Hrun & Hacq).
  destruct (acquire_image_run h env url w w0) as [cs Hrun0].
  rewrite Ha in Hrun0.
  assert (Hfst : fst (acquire_image h env url w) = Normal imageBlob)
    by now rewrite Hrun0.
  rewrite Hfst in Hrun. clear Hrun0 Hfst.
  exists acq. split; [exact Hacq |]. rewrite <- with_calls_app.
  destruct h; simpl in *; unfold RouteTs.process, Part000.process,
    RouteTs.submit, Part000.submit, bind, await, throw, do_fetch;
    rewrite Hrun, Hf, Hok, Ht; reflexivity.
Qed.

(** X10: an image API that refuses.  When the image has been acquired and
    the POST to the image API answers with a status that is not a success,
    the answer is 500 with ["OpenAI API error: "], the status code and the
    text of the answer as [details]; no completing update is issued: the
    call after the POST is the update that writes ["failed"] and that
    message. *)
Theorem X10_image_api_that_refuses
    (h : handler) (env : Env) (body : js_value) (w : World) (r0 : job)
    (imageBlob : Blob) (openAIResponse : Response) (errorText : jsstring) :
  let id := payload_field body "id" in
  let url := payload_field body "input_image_url" in
  let e := Error (str "OpenAI API error: "
                    ++ String_of_N (http_status openAIResponse)
                    ++ str " " ++ errorText) in
  let p := failed_update h e (Date_now env (clock_reads w)) in
  let w' := deliver h env (notification body) w in
  truthy id = true ->
  truthy url = true ->
  payload_field body "status" = VStr (str "pending") ->
  select_error env id = None ->
  filter (selected env id) (jobs w) = [r0] ->
  fst (acquire_image h env url w) = Normal imageBlob ->
  fetch env (variations_request h env imageBlob) = Normal openAIResponse ->
  ok openAIResponse = false ->
  text openAIResponse = Normal errorText ->
  response_of h env (notification body) w = Normal (failure_response e)
  /\ (exists acq,
        (acq = [] \/ acq = [Fetch (Get url)])
        /\ calls w'
           = calls w ++ [StoreSelect id; StoreUpdate id processing_update]
             ++ (acq ++ [Fetch (variations_request h env imageBlob)])
             ++ [StoreUpdate id p])
  /\ (update_error env id p = None ->
      forall r', In r' (jobs w') -> selected env id r' = true ->
        status r' = str "failed" /\ error_message r' = Some (message e)).
Proof.
  intros id url e p w' Hid Hurl Hs He Hf Ha Hfetch Hok Ht.
  destruct (api_refused_run h env id url (claimed env id w) w imageBlob
              openAIResponse errorText Ha Hfetch Hok Ht) as (acq & Hacq & Hrun).
  destruct (failure_delivery h env body w r0 e _ Hid Hurl Hs He Hf Hrun)
    as (Hresp & Hcalls & Hrows).
  split; [exact Hresp |]. split; [| exact Hrows].
  exists acq. split; [exact Hacq | exact Hcalls].
Qed.

Lemma X10_witness :
  let id := payload_field payload1 "id" in
  let url := payload_field payload1 "input_image_url" in
  let e := Error (str "OpenAI API error: 429 slow down") in
  let p := failed_update route_ts e (Date_now env_api_refuses (clock_reads world1)) in
  let w' := deliver route_ts env_api_refuses (notification payload1) world1 in
  response_of route_ts env_api_refuses (notification payload1) world1
  = Normal (failure_response e)
  /\ (exists acq,
        (acq = [] \/ acq = [Fetch (Get url)])
        /\ calls w'
           = calls world1 ++ [StoreSelect id; StoreUpdate id processing_update]
             ++ (acq ++ [Fetch (variations_request route_ts env_api_refuses png)])
             ++ [StoreUpdate id p])
  /\ (update_error env_api_refuses id p = None ->
      forall r', In r' (jobs w') -> selected env_api_refuses id r' = true ->
        status r' = str "failed" /\ error_message r' = Some (message e)).
Proof.
  apply (X10_image_api_that_refuses route_ts env_api_refuses payload1 world1 job1
           png rate_limited_reply (str "slow down")); reflexivity.
Defined.

(** The [try] body when the answer of the image API holds no URL. *)
Lemma result_url_missing_run (h : handler) (env : Env) (id url : js_value)
    (w w0 : World) (imageBlob : Blob) (openAIResponse : Response)
    (openAIResult : js_value) :
  fst (acquire_image h env url w0) = Normal imageBlob ->
  fetch env (variations_request h env imageBlob) = Normal openAIResponse ->
  ok openAIResponse = true ->
  json openAIResponse = Normal openAIResult ->
  falsy (opt_get (opt_index0 (opt_get openAIResult (str "data"))) (str "url")) = true ->
  exists acq,
    (acq = [] \/ acq = [Fetch (Get url)])
    /\ process h env id url w
       = (Throw (Error (str "OpenAI API did not return a result image URL")),
          with_calls (acq ++ [Fetch (variations_request h env imageBlob)]) w).
Proof.
  intros Ha Hf Hok Hj Hu.
  destruct (acquire_image_calls h env url w) as (acq & Hrun & Hacq).
  destruct (acquire_image_run h env url w w0) as [cs Hrun0].
  rewrite Ha in Hrun0.
  assert (Hfst : fst (acquire_image h env url w) = Normal imageBlob)
    by now rewrite Hrun0.
  rewrite Hfst in Hrun. clear Hrun0 Hfst.
  exists acq. split; [exact Hacq |]. rewrite <- with_calls_app.
  destruct h; simpl in *; unfold RouteTs.process, Part000.process,
    RouteTs.submit, Part000.submit, bind, await, throw, do_fetch;
    rewrite Hrun, Hf, Hok; cbn [negb]; rewrite Hj; cbv zeta; rewrite Hu;
    reflexivity.
Qed.

(** X11: an answer of the image API without a result.  When the POST
    answers with success but [data[0].url] of its JSON body is absent or
    falsy (no [data], an empty list, no [url], an empty string), the answer
    is 500 with ["OpenAI API did not return a result image URL"] as
    [details]; no completing update is issued, and the call after the POST
    is the update that writes ["failed"] and that message. *)
Theorem X11_result_without_url
    (h : handler) (env : Env) (body : js_value) (w : World) (r0 : job)
    (imageBlob : Blob) (openAIResponse : Response) (openAIResult : js_value) :
  let id := payload_field body "id" in
  let url := payload_field body "input_image_url" in
  let e := Error (str "OpenAI API did not return a result image URL") in
  let p := failed_update h e (Date_now env (clock_reads w)) in
  let w' := deliver h env (notification body) w in
  truthy id = true ->
  truthy url = true ->
  payload_field body "status" = VStr (str "pending") ->
  select_error env id = None ->
  filter (selected env id) (jobs w) = [r0] ->
  fst (acquire_image h env url w) = Normal imageBlob ->
  fetch env (variations_request h env imageBlob) = Normal openAIResponse ->
  ok openAIResponse = true ->
  json openAIResponse = Normal openAIResult ->
  falsy (opt_get (opt_index0 (opt_get openAIResult (str "data"))) (str "url")) = true ->
  response_of h env (notification body) w = Normal (failure_response e)
  /\ (exists acq,
        (acq = [] \/ acq = [Fetch (Get url)])
        /\ calls w'
           = calls w ++ [StoreSelect id; StoreUpdate id processing_update]
             ++ (acq ++ [Fetch (variations_request h env imageBlob)])
             ++ [StoreUpdate id p])
  /\ (update_error env id p = None ->
      forall r', In r' (jobs w') -> selected env id r' = true ->
        status r' = str "failed" /\ error_message r' = Some (message e)).
Proof.
  intros id url e p w' Hid Hurl Hs He Hf Ha Hfetch Hok Hj Hu.
  destruct (result_url_missing_run h env id url (claimed env id w) w imageBlob
              openAIResponse openAIResult Ha Hfetch Hok Hj Hu) as (acq & Hacq & Hrun).
  destruct (failure_delivery h env body w r0 e _ Hid Hurl Hs He Hf Hrun)
    as (Hresp & Hcalls & Hrows).
  split; [exact Hresp |]. split; [| exact Hrows].
  exists acq. split; [exact Hacq | exact Hcalls].
Qed.

Lemma X11_witness :
  let id := payload_field payload1 "id" in
  let url := payload_field payload1 "input_image_url" in
  let e := Error (str "OpenAI API did not return a result image URL") in
  let p := failed_update route_ts e (Date_now env_no_result (clock_reads world1)) in
  let w' := deliver route_ts env_no_result (notification payload1) world1 in
  response_of route_ts env_no_result (notification payload1) world1
  = Normal (failure_response e)
  /\ (exists acq,
        (acq = [] \/ acq = [Fetch (Get url)])
        /\ calls w'
           = calls world1 ++ [StoreSelect id; StoreUpdate id processing_update]
             ++ (acq ++ [Fetch (variations_request route_ts env_no_result png)])
             ++ [StoreUpdate id p])
  /\ (update_error env_no_result id p = None ->
      forall r', In r' (jobs w') -> selected env_no_result id r' = true ->
        status r' = str "failed" /\ error_message r' = Some (message e)).
Proof.
  apply (X11_result_without_url route_ts env_no_result payload1 world1 job1
           png empty_data_reply (VObj [ (str "data", VArr []) ])); reflexivity.
Defined.

(** X15: a network that fails.  When the GET of [input_image_url] rejects
    (no answer at all), the error is caught like any other: the answer is
    500 with the message of the rejection as [details], the image API is
    not called, and the call after the GET is the update that writes
    ["failed"] and that message. *)
Theorem X15_download_that_rejects
    (h : handler) (env : Env) (body : js_value) (w : World) (r0 : job)
    (e : js_error) :
  let id := payload_field body "id" in
  let url := payload_field body "input_image_url" in
  let p := failed_update h e (Date_now env (clock_reads w)) in
  let w' := deliver h env (notification body) w in
  truthy id = true ->
  truthy url = true ->
  payload_field body "status" = VStr (str "pending") ->
  select_error env id = None ->
  filter (selected env id) (jobs w) = [r0] ->
  (h = part_000 \/ exists s, url = VStr s /\ isBase64DataUrl s = false) ->
  fetch env (Get url) = Throw e ->
  response_of h env (notification body) w = Normal (failure_response e)
  /\ calls w'
     = calls w ++ [ StoreSelect id; StoreUpdate id processing_update;
                    Fetch (Get url); StoreUpdate id p ]
  /\ (update_error env id p = None ->
      forall r', In r' (jobs w') -> selected env id r' = true ->
        status r' = str "failed" /\ error_message r' = Some (message e)).
Proof.
  intros id url p w' Hid Hurl Hs He Hf Hremote Hfetch.
  assert (Hrun : process h env id url (claimed env id w)
                 = (Throw e, with_calls [Fetch (Get url)] (claimed env id w))).
  { destruct h.
    - destruct Hremote as [H | (s & Hs' & Hd)]; [discriminate H |].
      simpl. unfold RouteTs.process, RouteTs.acquire_image, bind, await, do_fetch.
      rewrite Hs'. simpl. rewrite Hd. rewrite <- Hs', Hfetch. reflexivity.
    - simpl. unfold Part000.process, Part000.acquire_image, bind, await, do_fetch.
      now rewrite Hfetch. }
  exact (failure_delivery h env body w r0 e _ Hid Hurl Hs He Hf Hrun).
Qed.

Lemma X15_witness :
  let id := payload_field payload1 "id" in
  let url := payload_field payload1 "input_image_url" in
  let e := Error (str "fetch failed") in
  let p := failed_update route_ts e (Date_now env_offline (clock_reads world1)) in
  let w' := deliver route_ts env_offline (notification payload1) world1 in
  response_of route_ts env_offline (notification payload1) world1
  = Normal (failure_response e)
  /\ calls w'
     = calls world1 ++ [ StoreSelect id; StoreUpdate id processing_update;
                         Fetch (Get url); StoreUpdate id p ]
  /\ (update_error env_offline id p = None ->
      forall r', In r' (jobs w') -> selected env_offline id r' = true ->
        status r' = str "failed" /\ error_message r' = Some (message e)).
Proof.
  apply (X15_download_that_rejects route_ts env_offline payload1 world1 job1
           (Error (str "fetch failed"))); try reflexivity.
  right. exists (str "https://example.com/cat.png"). split; reflexivity.
Defined.

(** ** The two handlers and the kind of [input_image_url] *)

(** X12: an [input_image_url] that is truthy but not a string (a number, an
    object) never reaches the network in route.ts: the call of [startsWith]
    on it throws inside the [try], so the job is marked ["failed"] with the
    message of that error and the answer is 500; the calls are the read and
    the two updates. *)
Theorem X12_url_that_is_not_a_string
    (env : Env) (body : js_value) (w : World) (r0 : job) :
  let id := payload_field body "id" in
  let url := payload_field body "input_image_url" in
  let p := failed_update route_ts startsWith_type_error
             (Date_now env (clock_reads w)) in
  let w' := deliver route_ts env (notification body) w in
  truthy id = true ->
  truthy url = true ->
  (forall s, url <> VStr s) ->
  payload_field body "status" = VStr (str "pending") ->
  select_error env id = None ->
  filter (selected env id) (jobs w) = [r0] ->
  response_of route_ts env (notification body) w
  = Normal (failure_response startsWith_type_error)
  /\ calls w'
     = calls w ++ [ StoreSelect id; StoreUpdate id processing_update;
                    StoreUpdate id p ]
  /\ (update_error env id p = None ->
      forall r', In r' (jobs w') -> selected env id r' = true ->
        status r' = str "failed"
        /\ error_message r' = Some (message startsWith_type_error)).
Proof.
  intros id url p w' Hid Hurl Hns Hs He Hf.
  assert (Hnil : claimed env id w = with_calls [] (claimed env id w))
    by (destruct (claimed env id w); unfold with_calls; simpl; now rewrite app_nil_r).
  assert (Hrun : process route_ts env id url (claimed env id w)
                 = (Throw startsWith_type_error, with_calls [] (claimed env id w))).
  { rewrite <- Hnil. simpl.
    unfold RouteTs.process, RouteTs.acquire_image, bind, await.
    destruct url; try reflexivity. exfalso. now apply (Hns s). }
  exact (failure_delivery route_ts env body w r0 _ _ Hid Hurl Hs He Hf Hrun).
Qed.

Lemma X12_witness :
  let id := payload_field payload_number "id" in
  let p := failed_update route_ts startsWith_type_error
             (Date_now env_ok (clock_reads world1)) in
  let w' := deliver route_ts env_ok (notification payload_number) world1 in
  response_of route_ts env_ok (notification payload_number) world1
  = Normal (failure_response startsWith_type_error)
  /\ calls w'
     = calls world1 ++ [ StoreSelect id; StoreUpdate id processing_update;
                         StoreUpdate id p ]
  /\ (update_error env_ok id p = None ->
      forall r', In r' (jobs w') -> selected env_ok id r' = true ->
        status r' = str "failed"
        /\ error_message r' = Some (message startsWith_type_error)).
Proof.
  apply (X12_url_that_is_not_a_string env_ok payload_number world1 job1);
    try reflexivity.
  intros s H. discriminate H.
Defined.

Lemma part_000_process_calls (env : Env) (id url : js_value) (w w3 : World)
    (out : completion NextResponse) :
  Part000.process env id url w = (out, w3) ->
  exists rest, calls w3 = calls w ++ Fetch (Get url) :: rest.
Proof.
  unfold Part000.process, Part000.acquire_image. unfold bind at 1 2.
  unfold do_fetch at 1.
  destruct (fetch env (Get url)) as [r | e].
  2: { intros H. injection H as _ <-. now exists []. }
  destruct (ok r); cbn [negb].
  2: { unfold throw. intros H. injection H as _ <-. now exists []. }
  unfold await at 1. destruct (blob r) as [b | e].
  2: { intros H. injection H as _ <-. now exists []. }
  intros H.
  destruct (submit_cases part_000 env id b (record_call (Fetch (Get url)) w))
    as [[e1 H1] | (u & _ & H1)]; cbv zeta in H1; simpl submit in H1;
    rewrite H1 in H.
  - injection H as _ <-. simpl. rewrite <- app_assoc. simpl.
    eexists; reflexivity.
  - destruct (update_error env id _); injection H as _ <-; simpl;
      rewrite <- !app_assoc; simpl; eexists; reflexivity.
Qed.

(** X13: the handler of part_000 has no decoder: once the guards are passed
    and the row has loaded, the call that follows the first update is an
    HTTP GET of [input_image_url], whatever that value is, a [data:] URL
    included. *)
Theorem X13_part_000_always_fetches
    (env : Env) (body : js_value) (w : World) (r0 : job) :
  let id := payload_field body "id" in
  let url := payload_field body "input_image_url" in
  let w' := deliver part_000 env (notification body) w in
  fails_validation body = false ->
  payload_field body "status" = VStr (str "pending") ->
  select_error env id = None ->
  filter (selected env id) (jobs w) = [r0] ->
  exists rest,
    calls w'
    = calls w ++ [ StoreSelect id; StoreUpdate id processing_update;
                   Fetch (Get url) ] ++ rest.
Proof.
  intros id url w' Hv Hs He Hf.
  destruct (pipeline_trace part_000 env body w r0 Hv Hs He Hf)
    as (out & w3 & Hrun & Hout).
  fold id url w' in Hrun, Hout. simpl process in Hrun.
  apply part_000_process_calls in Hrun as [rest Hc].
  rewrite calls_claimed in Hc.
  destruct out as [response | e].
  - destruct Hout as [_ ->]. exists rest. rewrite Hc. now rewrite <- !app_assoc.
  - destruct Hout as (_ & -> & _). eexists (rest ++ [_]). rewrite Hc.
    rewrite <- !app_assoc. simpl. reflexivity.
Qed.

Lemma X13_witness :
  let id := payload_field payload_inline "id" in
  let url := payload_field payload_inline "input_image_url" in
  let w' := deliver part_000 env_ok (notification payload_inline) world1 in
  exists rest,
    calls w'
    = calls world1 ++ [ StoreSelect id; StoreUpdate id processing_update;
                        Fetch (Get url) ] ++ rest.
Proof.
  apply (X13_part_000_always_fetches env_ok payload_inline world1 job1);
    reflexivity.
Defined.

(** X8: the bytes of an inline image are the bytes sent.  For a pending job
    whose row loads and whose [input_image_url] is the data URL of some
    bytes, the handler of route.ts follows the first update with one POST
    to the image-variations endpoint, authorised with the configured key as
    bearer token, whose form holds as the file [image], named [input.png], a
    blob of exactly those bytes whose type is the media type in lower case,
    [n] set to 1 and [size] to 1024x1024; the calls after it are writes to
    the store only. *)
Theorem X8_inline_image_reaches_the_api
    (env : Env) (body : js_value) (w : World) (r0 : job)
    (mime : jsstring) (bytes : list N) :
  let id := payload_field body "id" in
  let w' := deliver route_ts env (notification body) w in
  truthy id = true ->
  payload_field body "input_image_url" = VStr (data_url mime bytes) ->
  payload_field body "status" = VStr (str "pending") ->
  select_error env id = None ->
  filter (selected env id) (jobs w) = [r0] ->
  mime <> [] ->
  forallb is_mime_char mime = true ->
  bytes <> [] ->
  Forall (fun b => b < 256) bytes ->
  exists imageBlob rest,
    blob_bytes imageBlob = bytes
    /\ blob_type imageBlob = ASCII_lowercase mime
    /\ calls w'
       = calls w
         ++ [ StoreSelect id; StoreUpdate id processing_update;
              Fetch (Post (str "https://api.openai.com/v1/images/variations")
                       (str "Bearer " ++ OPENAI_API_KEY env)
                       [ FileEntry (str "image") imageBlob (str "input.png");
                         TextEntry (str "n") (str "1");
                         TextEntry (str "size") (str "1024x1024") ]) ]
         ++ rest
    /\ forallb is_store_update rest = true.
Proof.
  intros id w' Hid Hurl Hs He Hf Hm Hmc Hne Hb.
  assert (Hv : fails_validation body = false).
  { unfold fails_validation, falsy. fold id. rewrite Hid, Hurl, Hs. reflexivity. }
  destruct (pipeline_trace route_ts env body w r0 Hv Hs He Hf)
    as (out & w3 & Hrun & Hout).
  fold id w' in Hrun, Hout. rewrite Hurl in Hrun. simpl process in Hrun.
  assert (His : isBase64DataUrl (data_url mime bytes) = true)
    by (unfold isBase64DataUrl, startsWith, data_url; now rewrite strip_prefix_app).
  rewrite route_inline_process in Hrun by exact His.
  rewrite decoder_accepts_encoded in Hrun by assumption.
  exists (new_Blob bytes mime).
  assert (Hty : blob_type (new_Blob bytes mime) = ASCII_lowercase mime)
    by now apply Blob_type_of_media_type.
  destruct (submit_cases route_ts env id (new_Blob bytes mime) (claimed env id w))
    as [[e1 H1] | (u & _ & H1)]; cbv zeta in H1; simpl submit in H1;
    rewrite H1 in Hrun.
  - injection Hrun as <- <-. destruct Hout as (_ & -> & _).
    eexists [_]. split; [reflexivity |]. split; [exact Hty |].
    simpl. rewrite calls_claimed. rewrite <- !app_assoc. simpl.
    split; reflexivity.
  - destruct (update_error env id _); injection Hrun as <- <-.
    + destruct Hout as (_ & -> & _).
      eexists [_; _]. split; [reflexivity |]. split; [exact Hty |].
      simpl. rewrite calls_claimed. rewrite <- !app_assoc. simpl.
      split; reflexivity.
    + destruct Hout as [_ ->].
      eexists [_]. split; [reflexivity |]. split; [exact Hty |].
      simpl. rewrite calls_claimed. rewrite <- !app_assoc. simpl.
      split; reflexivity.
Qed.

Lemma X8_witness :
  let id := payload_field payload_inline "id" in
  let w' := deliver route_ts env_ok (notification payload_inline) world1 in
  exists imageBlob rest,
    blob_bytes imageBlob = [137; 80; 78; 71]
    /\ blob_type imageBlob = ASCII_lowercase (str "image/png")
    /\ calls w'
       = calls world1
         ++ [ StoreSelect id; StoreUpdate id processing_update;
              Fetch (Post (str "https://api.openai.com/v1/images/variations")
                       (str "Bearer " ++ OPENAI_API_KEY env_ok)
                       [ FileEntry (str "image") imageBlob (str "input.png");
                         TextEntry (str "n") (str "1");
                         TextEntry (str "size") (str "1024x1024") ]) ]
         ++ rest
    /\ forallb is_store_update rest = true.
Proof.
  apply (X8_inline_image_reaches_the_api env_ok payload_inline world1 job1
           (str "image/png") [137; 80; 78; 71]); try reflexivity.
  - discriminate.
  - discriminate.
  - repeat constructor.
Defined.

(** ** The columns of a row that a delivery has changed *)

(** X14: a row that a delivery has changed has status ["processing"],
    ["complete"] or ["failed"].  While it is ["processing"] its
    [result_image_url], [error_message] and [processed_at] are what they
    were before; and in route.ts a row that has become ["complete"] or
    ["failed"] has [processed_at] set. *)
Theorem X14_processed_at_follows_the_status
    (h : handler) (env : Env) (req : NextRequest) (w : World)
    (i : nat) (r r' : job) :
  nth_error (jobs w) i = Some r ->
  nth_error (jobs (deliver h env req w)) i = Some r' ->
  r' <> r ->
  (status r' = str "processing" \/ status r' = str "complete"
   \/ status r' = str "failed")
  /\ (status r' = str "processing" ->
      result_image_url r' = result_image_url r
      /\ error_message r' = error_message r
      /\ processed_at r' = processed_at r)
  /\ (h = route_ts ->
      status r' = str "complete" \/ status r' = str "failed" ->
      processed_at r' <> None).
Proof.
  intros Hr Hr' Hneq.
  destruct (delivery_writes h env req w) as [Hj | (p & Hj & Hp)]; rewrite Hj in Hr'.
  { congruence. }
  unfold write_rows in Hr'. rewrite nth_error_map, Hr in Hr'. simpl in Hr'.
  destruct (selected env (payload_id req) r); [| congruence].
  injection Hr' as <-.
  destruct Hp as [-> | [(u & now & -> & _) | (e & now & ->)]].
  - split; [now left |]. split; [now intros _ |].
    intros _ [H | H]; discriminate H.
  - split; [right; left; now destruct h |]. split.
    + destruct h; intros H; discriminate H.
    + intros -> _. discriminate.
  - split; [right; right; now destruct h |]. split.
    + destruct h; intros H; discriminate H.
    + intros -> _. discriminate.
Qed.

Lemma X14_witness :
  let r' := apply_patch
              (complete_update route_ts (VStr (str "https://cdn.example.com/out.png"))
                 (time_stamp 0)) job1 in
  (status r' = str "processing" \/ status r' = str "complete"
   \/ status r' = str "failed")
  /\ (status r' = str "processing" ->
      result_image_url r' = result_image_url job1
      /\ error_message r' = error_message job1
      /\ processed_at r' = processed_at job1)
  /\ (route_ts = route_ts ->
      status r' = str "complete" \/ status r' = str "failed" ->
      processed_at r' <> None).
Proof.
  apply (X14_processed_at_follows_the_status route_ts env_ok (notification payload1)
           world1 0 job1
           (apply_patch
              (complete_update route_ts (VStr (str "https://cdn.example.com/out.png"))
                 (time_stamp 0)) job1)).
  - reflexivity.
  - reflexivity.
  - discriminate.
Defined.
